(** * A forward HTTP proxy handler: model of [proxy/handler.go]

    The handler validates the request target, filters by destination
    domain, tries the cache, and otherwise clones the request, forwards it
    and relays the answer.  The Go standard library ([strings],
    [net/textproto], [net/http]) and the two collaborators of the handler
    (the cache and the network) are modelled first; the handler follows,
    function by function, under the names it has in the source. *)

From Stdlib Require Import ZArith Ascii String DecimalString List Lia.
From stdpp Require Import base option list strings gmap fin_maps.

Local Open Scope Z_scope.

(** ** Go strings

    A Go [string] and a [[]byte] are byte sequences; both are [string]
    here, one [ascii] per byte. *)

Module strings.

(** [strings.HasPrefix]. *)
Fixpoint HasPrefix (s prefix : string) : bool :=
  match prefix, s with
  | EmptyString, _ => true
  | String _ _, EmptyString => false
  | String b prefix', String a s' => Ascii.eqb a b && HasPrefix s' prefix'
  end.

(** [strings.HasSuffix]:
    [len(s) >= len(suffix) && s[len(s)-len(suffix):] == suffix]. *)
Definition HasSuffix (s suffix : string) : bool :=
  (String.length suffix <=? String.length s)%nat
  && String.eqb
       (String.substring (String.length s - String.length suffix)
                         (String.length suffix) s)
       suffix.

(** [strings.Index]: the offset of the first occurrence of [substr] in
    [s], or -1. *)
Fixpoint indexFrom (i : Z) (s substr : string) : Z :=
  if HasPrefix s substr then i
  else match s with
       | EmptyString => -1
       | String _ s' => indexFrom (i + 1) s' substr
       end.

Definition Index (s substr : string) : Z := indexFrom 0 s substr.

(** [strings.Contains]: [Index(s, substr) >= 0]. *)
Definition Contains (s substr : string) : bool := 0 <=? Index s substr.

End strings.

(** ** net/textproto: canonical header keys *)

Module textproto.

Definition isLower (c : ascii) : bool :=
  (97 <=? N_of_ascii c)%N && (N_of_ascii c <=? 122)%N.
Definition isUpper (c : ascii) : bool :=
  (65 <=? N_of_ascii c)%N && (N_of_ascii c <=? 90)%N.
Definition isDigit (c : ascii) : bool :=
  (48 <=? N_of_ascii c)%N && (N_of_ascii c <=? 57)%N.

(** [validHeaderFieldByte]: the token characters of RFC 7230. *)
Definition validHeaderFieldByte (c : ascii) : bool :=
  isLower c || isUpper c || isDigit c
  || existsb (Ascii.eqb c)
       (list_ascii_of_string "!#$%&'*+-.^_`|~").

Fixpoint allValid (s : string) : bool :=
  match s with
  | EmptyString => true
  | String c s' => validHeaderFieldByte c && allValid s'
  end.

(** The distance between the two cases, ['a' - 'A']. *)
Definition toLower : N := 32.

(** The canonicalising loop: upper case for the first letter and for
    every letter after a dash, lower case elsewhere. *)
Fixpoint canonCase (upper : bool) (s : string) : string :=
  match s with
  | EmptyString => EmptyString
  | String c s' =>
      let c' :=
        if upper && isLower c then ascii_of_N (N_of_ascii c - toLower)
        else if negb upper && isUpper c then ascii_of_N (N_of_ascii c + toLower)
        else c in
      String c' (canonCase (Ascii.eqb c' "-") s')
  end.

(** [CanonicalMIMEHeaderKey]: a key with a byte that is not a token
    character is returned unchanged. *)
Definition CanonicalMIMEHeaderKey (s : string) : string :=
  if allValid s then canonCase true s else s.

End textproto.

(** ** net/http: headers *)

(** [http.Header] is [map[string][]string]. *)
Abbreviation HeaderMap := (gmap string (list string)).

Module Header.

(** [h.Add(key, value)]: appends under the canonical form of [key]. *)
Definition Add (key value : string) (h : HeaderMap) : HeaderMap :=
  let key := textproto.CanonicalMIMEHeaderKey key in
  <[key := default [] (h !! key) ++ [value]]> h.

(** [h.Set(key, value)]: replaces whatever is under the canonical key
    ([Set] is a reserved word, hence the underscore). *)
Definition Set_ (key value : string) (h : HeaderMap) : HeaderMap :=
  <[textproto.CanonicalMIMEHeaderKey key := [value]]> h.

(** [h.Get(key)]: the first value under the canonical key, or [""]. *)
Definition Get (key : string) (h : HeaderMap) : string :=
  match h !! textproto.CanonicalMIMEHeaderKey key with
  | Some (v :: _) => v
  | _ => ""
  end.

(** [h.Del(key)]. *)
Definition Del (key : string) (h : HeaderMap) : HeaderMap :=
  delete (textproto.CanonicalMIMEHeaderKey key) h.

(** [h[key]] read as a list: the values stored under exactly [key],
    none when the key is absent. *)
Definition values (key : string) (h : HeaderMap) : list string :=
  default [] (h !! key).

(** A header named [key] is present: the map has an entry under its
    canonical form that holds at least one value. *)
Definition present (key : string) (h : HeaderMap) : Prop :=
  values (textproto.CanonicalMIMEHeaderKey key) h ≠ [].

(** Some value of the header named [key] contains [token]. *)
Definition mentions (key token : string) (h : HeaderMap) : Prop :=
  ∃ v, v ∈ values (textproto.CanonicalMIMEHeaderKey key) h
       ∧ strings.Contains v token = true.

(** The loop [for _, value := range values { dst.Add(key, value) }]. *)
Definition addAll (key : string) (values : list string) (dst : HeaderMap)
  : HeaderMap :=
  foldl (λ dst value, Add key value dst) dst values.

(** The loop [for key, values := range src { ... }], going through the
    entries of [src] in the order [entries]. *)
Definition copyEntries (entries : list (string * list string))
    (dst : HeaderMap) : HeaderMap :=
  foldl (λ dst entry, addAll entry.1 entry.2 dst) dst entries.

(** The two loops over a map.  Go ranges over a map in an order that it
    does not fix; [map_to_list] gives one. *)
Definition copyInto (src dst : HeaderMap) : HeaderMap :=
  copyEntries (map_to_list src) dst.

(** Every key is in canonical form, as for the maps that net/http
    builds when it parses a message. *)
Definition canonicalKeys (h : HeaderMap) : Prop :=
  ∀ key, is_Some (h !! key) → textproto.CanonicalMIMEHeaderKey key = key.

End Header.

(** ** fmt *)

(** A Go [error], by its message. *)
Definition error := string.

Module fmt.

(** An operand of a formatting call. *)
Inductive Arg :=
| ArgS (s : string)   (* a string, under [%s] *)
| ArgD (n : Z)        (* an int, under [%d] *)
| ArgV (e : error).   (* an error, under [%v] *)

Definition showArg (a : Arg) : string :=
  match a with
  | ArgS s => s
  | ArgD n => NilEmpty.string_of_int (Z.to_int n)
  | ArgV e => e
  end.

(** [fmt.Sprintf] for the verbs the handler uses ([%s], [%d], [%v]),
    each applied to an operand of its kind, and for the doubled percent
    sign; the other verbs, which the handler does not use, are left in
    place. *)
Fixpoint Sprintf (format : string) (args : list Arg) : string :=
  match format with
  | EmptyString => EmptyString
  | String "%" (String verb rest) =>
      if existsb (Ascii.eqb verb) (list_ascii_of_string "sdv") then
        match args with
        | a :: args' => showArg a +:+ Sprintf rest args'
        | [] => "%!" +:+ String verb "(MISSING)" +:+ Sprintf rest []
        end
      else if Ascii.eqb verb "%" then String "%" (Sprintf rest args)
      else String "%" (String verb (Sprintf rest args))
  | String c rest => String c (Sprintf rest args)
  end.

(** [fmt.Errorf] on a format without verbs. *)
Definition Errorf (format : string) : error := Sprintf format [].

End fmt.

(** ** net/url and net/http: messages *)

Module url.

(** What the handler reads of a [*url.URL]: the two fields it tests
    and the text that [String()] renders, which is net/url's to
    compute and is carried here as it comes out. *)
Record URL := { Scheme : string; Host : string; String : string }.

End url.

(** A body stream: the bytes it yields, and the error that ends the
    reading when there is one. *)
Record Body := { bytes : string; readErr : option error }.

Module io.

(** [io.ReadAll]. *)
Definition ReadAll (b : Body) : string * option error :=
  (bytes b, readErr b).

End io.

Module Request.

(** [http.Request], the fields the handler touches. *)
Record t := {
  Method : string;
  URL : url.URL;
  Header : HeaderMap;
  Body : Body;
  Host : string;
  RemoteAddr : string
}.

End Request.

Module Response.

(** [http.Response]. *)
Record t := {
  StatusCode : Z;
  Header : HeaderMap;
  Body : Body
}.

End Response.

Module http.

Definition MethodGet : string := "GET".
Definition MethodHead : string := "HEAD".

Definition StatusOK : Z := 200.
Definition StatusBadRequest : Z := 400.
Definition StatusForbidden : Z := 403.
Definition StatusInternalServerError : Z := 500.
Definition StatusBadGateway : Z := 502.

(** [http.ResponseWriter].  [wHeader] is the map behind [w.Header()];
    [wSent] is the status and the headers of the handler as they stood
    when the header was written, which happens once; [wBody] is what
    has been written after it; [wFail] is the error every [Write] meets
    when the connection to the client is gone; [wWire] is the headers
    that went out to the client with the first data, once data has been
    written: those of the handler and what the server adds to them;
    [wSniff] is the content type that the server detects in data
    ([http.DetectContentType], which is net/http's to compute). *)
Record ResponseWriter := {
  wHeader : HeaderMap;
  wSent : option (Z * HeaderMap);
  wBody : string;
  wFail : option error;
  wWire : option HeaderMap;
  wSniff : string → string
}.

(** [w.Header().Add], [.Set] and friends. *)
Definition onHeader (f : HeaderMap → HeaderMap) (w : ResponseWriter)
  : ResponseWriter :=
  {| wHeader := f (wHeader w); wSent := wSent w;
     wBody := wBody w; wFail := wFail w;
     wWire := wWire w; wSniff := wSniff w |}.

(** [w.WriteHeader(code)]: a second call changes nothing. *)
Definition WriteHeader (code : Z) (w : ResponseWriter) : ResponseWriter :=
  match wSent w with
  | Some _ => w
  | None => {| wHeader := wHeader w; wSent := Some (code, wHeader w);
               wBody := wBody w; wFail := wFail w;
               wWire := wWire w; wSniff := wSniff w |}
  end.

(** [bodyAllowedForStatus]: not for 1xx, 204 and 304. *)
Definition bodyAllowedForStatus (code : Z) : bool :=
  negb (((100 <=? code) && (code <=? 199)) || (code =? 204) || (code =? 304))%Z.

(** Whether the server detects a content type when the first data goes
    out under the status [code] and the headers [h] of the handler
    ([chunkWriter.writeHeader]): when a body is allowed and the headers
    name no content type, no content encoding and no transfer
    encoding. *)
Definition sniffs (code : Z) (h : HeaderMap) : bool :=
  bodyAllowedForStatus code
  && bool_decide (h !! "Content-Type" = None)
  && bool_decide (Header.Get "Content-Encoding" h = "")
  && bool_decide (Header.Get "Transfer-Encoding" h = "").

(** The headers that go out with the data [b], when it is the first:
    "If the Header does not contain a Content-Type line, Write adds a
    Content-Type set to the result of passing the initial 512 bytes of
    written data to DetectContentType."  The server does so when the
    first data goes out, whether the status was written by
    [WriteHeader] or by [Write]; a write of no data sends nothing. *)
Definition flushed (b : string) (w : ResponseWriter) : option HeaderMap :=
  match wWire w, wSent w with
  | Some wire, _ => Some wire
  | None, Some (code, h) =>
      if bool_decide (b = "") then None
      else if sniffs code h
           then Some (Header.Set_ "Content-Type" (wSniff w b) h)
           else Some h
  | None, None => None
  end.

(** [w.Write(b)]: writes the header with status 200 when it has not
    been written yet. *)
Definition Write (b : string) (w : ResponseWriter)
  : ResponseWriter * option error :=
  let w := WriteHeader StatusOK w in
  match wFail w with
  | Some err => (w, Some err)
  | None => ({| wHeader := wHeader w; wSent := wSent w;
                wBody := wBody w +:+ b; wFail := wFail w;
                wWire := flushed b w; wSniff := wSniff w |}, None)
  end.

(** [http.Error(w, error, code)]. *)
Definition Error (w : ResponseWriter) (error : string) (code : Z)
  : ResponseWriter :=
  let w := onHeader (Header.Set_ "Content-Type" "text/plain; charset=utf-8") w in
  let w := onHeader (Header.Set_ "X-Content-Type-Options" "nosniff") w in
  let w := WriteHeader code w in
  fst (Write (error +:+ String "010" EmptyString) w).

(** The status code the client has been sent, if any. *)
Definition status (w : ResponseWriter) : option Z := fst <$> wSent w.

(** The headers that the handler has sent: its header map as it stood
    when the header was written; none before the header is written. *)
Definition sentHeader (w : ResponseWriter) : HeaderMap :=
  from_option snd ∅ (wSent w).

(** The headers that the client receives once the handler has returned:
    those that went out with the first data or, when no data was
    written, those of the handler.  ([Date], [Content-Length] and the
    like, which the server adds to every answer, are left out.) *)
Definition wireHeader (w : ResponseWriter) : HeaderMap :=
  from_option id (sentHeader w) (wWire w).

(** [http.Client]: the two fields the handler sets.  [Timeout] is a
    [time.Duration], in nanoseconds. *)
Record Client := {
  Timeout : Z;
  CheckRedirect : Request.t → list Request.t → option error
}.

(** One exchange with the network.  Whether an answer is a redirect
    that the client would follow, and the request that follows it, are
    net/http's to work out from the status and the [Location] header;
    a redirect it cannot follow is a failure. *)
Inductive RoundTripResult :=
| RTError (err : error)
| RTFinal (resp : Response.t)
| RTRedirect (resp : Response.t) (next : Request.t).

End http.

(** ** time *)

Module time.

(** [int64] arithmetic wraps around. *)
Definition wrap64 (z : Z) : Z := (z + 2 ^ 63) mod 2 ^ 64 - 2 ^ 63.

(** [time.Second], in nanoseconds. *)
Definition Second : Z := 1000000000.

(** [time.Duration(n) * time.Second]. *)
Definition seconds (n : Z) : Z := wrap64 (wrap64 n * Second).

End time.

(** ** The collaborators *)

Module cache.

(** What [Get] returns when the key is found. *)
Record Item := { Value : string }.

(** [cache.Cache], by the one method the handler calls.  A lookup may
    change the store (statistics, recency), so it returns the store. *)
Class Cache (C : Type) := Get : C → string → option Item * C.

End cache.

(** The network behind [http.DefaultTransport]: one exchange, and the
    network after it. *)
Class Network (N : Type) := roundTrip : N → Request.t → http.RoundTripResult * N.

(** The error in which [client.Do] reports a failure: the text of the
    [*url.Error] that net/http builds around [cause], from the method of
    the first request of the call and from the URL of the request that
    failed or, when [CheckRedirect] has refused a redirect, from the
    [Location] of the redirecting response. *)
Class ClientErrors :=
  urlError : ∀ (first failed : Request.t) (redirect : option Response.t)
               (cause : error), error.

Module config.

(** [config.Config], the fields the handler reads. *)
Record Config := { AllowedDomains : list string; ProxyTimeout : Z }.

End config.

(** What a request leaves behind, in the order it happens. *)
Inductive Event :=
| EvLog (line : string)
| EvCacheGet (key : string)
| EvRoundTrip (req : Request.t).

(** The state outside the handler: the cache, the network and the record
    of what has happened. *)
Record World (C N : Type) := {
  wCache : C;
  wNet : N;
  wTrace : list Event
}.
Arguments wCache {C N} _.
Arguments wNet {C N} _.
Arguments wTrace {C N} _.

Module log.

(** [log.Printf]. *)
Definition Printf {C N} (format : string) (args : list fmt.Arg)
    (σ : World C N) : World C N :=
  {| wCache := wCache σ; wNet := wNet σ;
     wTrace := wTrace σ ++ [EvLog (fmt.Sprintf format args)] |}.

End log.

(** ** The handler *)

Import http config.

(** [ProxyHandler].  Its [cache] field is a reference to the
    collaborator, whose state is the [wCache] of the [World]. *)
Record ProxyHandler := {
  client : Client;
  config : Config;
  cacheables : gmap string bool   (* Map of cacheable HTTP methods *)
}.

(** [NewProxyHandler]. *)
Definition NewProxyHandler (cfg : Config) : ProxyHandler :=
  (* Create HTTP client with timeouts *)
  let client := {|
    Timeout := time.seconds (ProxyTimeout cfg);
    CheckRedirect := λ req via,
      (* Follow up to 10 redirects *)
      if (10 <=? length via)%nat
      then Some (fmt.Errorf "stopped after 10 redirects")
      else None
  |} in
  (* Define cacheable HTTP methods *)
  let cacheables : gmap string bool :=
    <[MethodHead := true]> (<[MethodGet := true]> ∅) in
  {| client := client; config := cfg; cacheables := cacheables |}.

(** [isDomainAllowed] checks if the domain is allowed based on
    configuration. *)
Definition isDomainAllowed (p : ProxyHandler) (host : string) : bool :=
  (* If no allowed domains are specified, all domains are allowed *)
  if (length (AllowedDomains (config p)) =? 0)%nat then true
  else
    (* Check if the host is in the allowed domains list *)
    existsb (λ domain, strings.HasSuffix host domain)
            (AllowedDomains (config p)).

(** [isCacheable] checks if the request can be cached. *)
Definition isCacheable (p : ProxyHandler) (r : Request.t) : bool :=
  (* Check HTTP method *)
  if negb (default false (cacheables p !! Request.Method r)) then false
  (* Don't cache if there's an Authorization header *)
  else if negb (String.eqb (Header.Get "Authorization" (Request.Header r)) "")
  then false
  else
    (* Don't cache if there's a Cache-Control: no-store header *)
    let cacheControl := Header.Get "Cache-Control" (Request.Header r) in
    negb (strings.Contains cacheControl "no-store").

(** [isResponseCacheable] checks if the response can be cached. *)
Definition isResponseCacheable (p : ProxyHandler) (resp : Response.t) : bool :=
  (* Only cache successful responses *)
  if negb (Response.StatusCode resp =? StatusOK) then false
  else
    (* Don't cache if there's a Cache-Control: no-store header *)
    let cacheControl := Header.Get "Cache-Control" (Response.Header resp) in
    if strings.Contains cacheControl "no-store" then false
    (* Don't cache if there's a Set-Cookie header *)
    else if negb (String.eqb (Header.Get "Set-Cookie" (Response.Header resp)) "")
    then false
    else true.

(** [createCacheKey] creates a unique key for the request. *)
Definition createCacheKey (p : ProxyHandler) (r : Request.t) : string :=
  (* Simple key format: METHOD:URL *)
  fmt.Sprintf "%s:%s"
    [fmt.ArgS (Request.Method r); fmt.ArgS (url.String (Request.URL r))].

(** [writeCachedHeaders]: sets a placeholder header; [response] is not
    looked at. *)
Definition writeCachedHeaders (p : ProxyHandler) (w : ResponseWriter)
    (response : string) : ResponseWriter :=
  onHeader (Header.Set_ "X-Cache" "HIT") w.

(** [writeCachedBody]: writes the response directly. *)
Definition writeCachedBody (p : ProxyHandler) (w : ResponseWriter)
    (response : string) : ResponseWriter :=
  fst (Write response w).

Section Handler.

Context {C N : Type} `{!cache.Cache C} `{!Network N} `{!ClientErrors}.

(** [http.NewRequest(method, url, body)]: net/http's constructor, which
    fails on a method that is not a token and on a URL that does not
    parse. *)
Variable NewRequest : string → string → Body → error + Request.t.

(** [cloneRequest] creates a new request for the target server. *)
Definition cloneRequest (p : ProxyHandler) (r : Request.t)
  : error + Request.t :=
  (* Create a new URL from the request URL *)
  let targetURL := Request.URL r in
  (* Create a new request *)
  match NewRequest (Request.Method r) (url.String targetURL) (Request.Body r) with
  | inl err => inl err
  | inr proxyReq =>
      (* Copy headers *)
      let header := Header.copyInto (Request.Header r) ∅ in
      (* Update specific headers *)
      let header := Header.Set_ "X-Forwarded-For" (Request.RemoteAddr r) header in
      let header := Header.Set_ "X-Forwarded-Host" (Request.Host r) header in
      (* Don't pass the Connection header *)
      let header := Header.Del "Connection" header in
      inr {| Request.Method := Request.Method proxyReq;
             Request.URL := Request.URL proxyReq;
             Request.Header := header;
             Request.Body := Request.Body proxyReq;
             Request.Host := Request.Host proxyReq;
             Request.RemoteAddr := Request.RemoteAddr proxyReq |}
  end.

(** [cacheResponse]: just logs that the response would be cached. *)
Definition cacheResponse (p : ProxyHandler) (key : string)
    (resp : Response.t) (body : string) (σ : World C N) : World C N :=
  log.Printf "Would cache response for %s (%d bytes)"
    [fmt.ArgS key; fmt.ArgD (Z.of_nat (String.length body))] σ.

(** [client.Do(req)]: net/http's loop.  Each round sends [req] and, on
    a redirect, asks [CheckRedirect] with the next request and the
    requests made so far, the oldest first.  When the exchange fails or
    the policy refuses, [Do] returns the error wrapped by [urlError]
    (along with the last response, on a refusal, which the handler does
    not look at).  A policy that never refuses can keep the
    loop going for ever: [fuel] bounds the rounds, and [None] is a loop
    that has not ended within it.  The result comes with the network
    after the call and the requests sent. *)
Fixpoint Do (fuel : nat) (c : Client) (reqs : list Request.t)
    (req : Request.t) (n : N)
  : option ((error + Response.t) * N * list Request.t) :=
  match fuel with
  | O => None
  | S fuel =>
      let reqs := reqs ++ [req] in
      let first := hd req reqs in
      match roundTrip n req with
      | (RTError err, n) => Some (inl (urlError first req None err), n, reqs)
      | (RTFinal resp, n) => Some (inr resp, n, reqs)
      | (RTRedirect resp next, n) =>
          match CheckRedirect c next reqs with
          | Some err =>
              Some (inl (urlError first next (Some resp) err), n, reqs)
          | None => Do fuel c reqs next n
          end
      end
  end.

(** [p.cache.Get(key)], recorded. *)
Definition cacheGet (key : string) (σ : World C N)
  : option cache.Item * World C N :=
  let '(found, c) := cache.Get (wCache σ) key in
  (found, {| wCache := c; wNet := wNet σ;
             wTrace := wTrace σ ++ [EvCacheGet key] |}).

(** [p.client.Do(proxyReq)], recorded. *)
Definition clientDo (fuel : nat) (p : ProxyHandler) (proxyReq : Request.t)
    (σ : World C N) : option ((error + Response.t) * World C N) :=
  match Do fuel (client p) [] proxyReq (wNet σ) with
  | None => None
  | Some (res, n, reqs) =>
      Some (res, {| wCache := wCache σ; wNet := n;
                    wTrace := wTrace σ ++ map EvRoundTrip reqs |})
  end.

(** [ServeHTTP], from "Clone the request for the target server" to the
    end: what runs when the cache has not answered. *)
Definition serveFromOrigin (fuel : nat) (p : ProxyHandler)
    (w : ResponseWriter) (r : Request.t) (σ : World C N)
  : option (ResponseWriter * World C N) :=
  (* Clone the request for the target server *)
  match cloneRequest p r with
  | inl err =>
      Some (Error w (fmt.Sprintf "Error creating proxy request: %v" [fmt.ArgV err])
                  StatusInternalServerError, σ)
  | inr proxyReq =>
      (* Forward the request to the target server *)
      match clientDo fuel p proxyReq σ with
      | None => None
      | Some (inl err, σ) =>
          Some (Error w (fmt.Sprintf "Error forwarding request: %v" [fmt.ArgV err])
                      StatusBadGateway, σ)
      | Some (inr resp, σ) =>
          (* Copy headers from target response to client response *)
          let w := onHeader (Header.copyInto (Response.Header resp)) w in
          (* Add proxy headers *)
          let w := onHeader (Header.Set_ "X-Proxy-Server" "Go-Proxy-Server/1.0") w in
          (* Set status code *)
          let w := WriteHeader (Response.StatusCode resp) w in
          (* Read response body *)
          match io.ReadAll (Response.Body resp) with
          | (_, Some err) =>
              Some (w, log.Printf "Error reading response body: %v" [fmt.ArgV err] σ)
          | (body, None) =>
              (* Check if we should cache this response *)
              let σ :=
                if isCacheable p r && isResponseCacheable p resp then
                  let cacheKey := createCacheKey p r in
                  (* Store response in cache *)
                  cacheResponse p cacheKey resp body σ
                else σ in
              (* Write response body to client *)
              match Write body w with
              | (w, Some err) =>
                  Some (w, log.Printf "Error writing response body: %v" [fmt.ArgV err] σ)
              | (w, None) => Some (w, σ)
              end
          end
      end
  end.

(** [ServeHTTP] implements the [http.Handler] interface. *)
Definition ServeHTTP (fuel : nat) (p : ProxyHandler) (w : ResponseWriter)
    (r : Request.t) (σ : World C N) : option (ResponseWriter * World C N) :=
  (* Log the request *)
  let σ := log.Printf "Proxying request: %s %s"
             [fmt.ArgS (Request.Method r); fmt.ArgS (url.String (Request.URL r))] σ in
  (* Check if the request URL is properly formed *)
  if String.eqb (url.Scheme (Request.URL r)) ""
     || String.eqb (url.Host (Request.URL r)) ""
  then
    Some (Error w "Invalid proxy request. URL must include scheme and host."
                StatusBadRequest, σ)
  (* Check if the domain is allowed *)
  else if negb (isDomainAllowed p (url.Host (Request.URL r))) then
    Some (Error w "Domain not allowed" StatusForbidden, σ)
  (* Check if we can use the cache for this request *)
  else if isCacheable p r then
    let cacheKey := createCacheKey p r in
    (* Try to get from cache *)
    match cacheGet cacheKey σ with
    | (Some item, σ) =>
        let σ := log.Printf "Cache hit for %s" [fmt.ArgS cacheKey] σ in
        (* Parse the cached response *)
        let response := cache.Value item in
        (* Write headers from cached response *)
        let w := writeCachedHeaders p w response in
        (* Write body from cached response *)
        let w := writeCachedBody p w response in
        Some (w, σ)
    | (None, σ) =>
        let σ := log.Printf "Cache miss for %s" [fmt.ArgS cacheKey] σ in
        serveFromOrigin fuel p w r σ
    end
  else serveFromOrigin fuel p w r σ.

End Handler.

(** ** Stages of a run, for stating what [ServeHTTP] does *)

(** The target is in proxy form: it has a scheme and a host. *)
Definition validTarget (r : Request.t) : Prop :=
  url.Scheme (Request.URL r) ≠ "" ∧ url.Host (Request.URL r) ≠ "".

Section Stages.

Context {C N : Type} `{!cache.Cache C} `{!Network N} `{!ClientErrors}.

(** What the cache answers for [r], when the handler asks at all. *)
Definition cacheAnswer (p : ProxyHandler) (r : Request.t) (σ : World C N)
  : option cache.Item :=
  if isCacheable p r
  then fst (cache.Get (wCache σ) (createCacheKey p r))
  else None.

(** The world in which the request is cloned and forwarded: after the
    first log line and, for a cacheable request, after the lookup that
    found nothing and its log line. *)
Definition afterLookup (p : ProxyHandler) (r : Request.t) (σ : World C N)
  : World C N :=
  let σ := log.Printf "Proxying request: %s %s"
             [fmt.ArgS (Request.Method r); fmt.ArgS (url.String (Request.URL r))] σ in
  if isCacheable p r then
    log.Printf "Cache miss for %s" [fmt.ArgS (createCacheKey p r)]
      (snd (cacheGet (createCacheKey p r) σ))
  else σ.

(** The network answers the first [k] requests of the chain that
    starts at [req] with redirects. *)
Fixpoint redirectChain (k : nat) (n : N) (req : Request.t) : bool :=
  match k with
  | O => true
  | S k =>
      match roundTrip n req with
      | (RTRedirect _ next, n) => redirectChain k n next
      | _ => false
      end
  end.

End Stages.

(** An event that reaches outside the proxy: a request on the network. *)
Definition isRoundTrip (e : Event) : bool :=
  match e with EvRoundTrip _ => true | _ => false end.

(** ** Collaborators to run the handler with *)

(** A cache that is a finite map and that lookups leave as it is. *)
#[global] Instance mapCache : cache.Cache (gmap string cache.Item) :=
  λ m key, (m !! key, m).

(** A network that answers every request by a fixed function of it. *)
#[global] Instance originNet : Network (Request.t → RoundTripResult) :=
  λ origin req, (origin req, origin).

(** net/http's [validMethod]: a non-empty token. *)
Definition validMethod (method : string) : bool :=
  negb (String.eqb method "") && textproto.allValid method.

(** A constructor that checks the method as [http.NewRequest] does (an
    empty method stands for GET) and takes every URL text as it is. *)
Definition tokenNewRequest (method url : string) (body : Body)
  : error + Request.t :=
  let method := if String.eqb method "" then "GET" else method in
  if negb (validMethod method) then inl ("net/http: invalid method " +:+ method)
  else inr {| Request.Method := method;
              Request.URL := {| url.Scheme := ""; url.Host := ""; url.String := url |};
              Request.Header := ∅;
              Request.Body := body;
              Request.Host := "";
              Request.RemoteAddr := "" |}.

(** A stand-in for [http.DetectContentType] on markup and text: the
    first 512 bytes are looked at; after leading white space, an HTML
    tag of the list, in either case and followed by a space or [>],
    makes HTML, [<?xml] makes XML, data without control bytes is plain
    text, and the rest is a stream of octets.  The signatures that
    net/http tries between XML and plain text (byte order marks, PDF
    and PostScript, images, sounds, films, fonts, archives) are not
    here. *)
Module sniff.

Definition isWS (c : ascii) : bool :=
  existsb (Ascii.eqb c)
    [ascii_of_nat 9; ascii_of_nat 10; ascii_of_nat 12; ascii_of_nat 13;
     ascii_of_nat 32].

Fixpoint skipWS (data : string) : string :=
  match data with
  | String c rest => if isWS c then skipWS rest else data
  | EmptyString => data
  end.

(** A byte of the data against a byte of the signature: letters of the
    signature match in both cases. *)
Definition sameLetter (b db : ascii) : bool :=
  if textproto.isUpper b
  then Ascii.eqb b db
       || Ascii.eqb (ascii_of_N (N_of_ascii b + textproto.toLower)) db
  else Ascii.eqb b db.

(** [htmlSig.match]: the signature, then a tag-terminating byte. *)
Fixpoint htmlSig (sig data : string) : bool :=
  match sig, data with
  | EmptyString, String c _ => Ascii.eqb c " " || Ascii.eqb c ">"
  | String b sig', String db data' => sameLetter b db && htmlSig sig' data'
  | _, EmptyString => false
  end.

Definition htmlSigs : list string :=
  ["<!DOCTYPE HTML"; "<HTML"; "<HEAD"; "<SCRIPT"; "<IFRAME"; "<H1"; "<DIV";
   "<FONT"; "<TABLE"; "<A"; "<STYLE"; "<TITLE"; "<B"; "<BODY"; "<BR"; "<P";
   "<!--"].

(** The bytes that make data binary for [textSig]. *)
Definition isBinary (c : ascii) : bool :=
  let n := N_of_ascii c in
  (n <=? 8)%N || (n =? 11)%N || ((14 <=? n)%N && (n <=? 26)%N)
  || ((28 <=? n)%N && (n <=? 31)%N).

Fixpoint noBinary (data : string) : bool :=
  match data with
  | EmptyString => true
  | String c rest => negb (isBinary c) && noBinary rest
  end.

Definition DetectContentType (data : string) : string :=
  let data := String.substring 0 512 data in
  let body := skipWS data in
  if existsb (λ sig, htmlSig sig body) htmlSigs
  then "text/html; charset=utf-8"
  else if strings.HasPrefix body "<?xml" then "text/xml; charset=utf-8"
  else if noBinary body then "text/plain; charset=utf-8"
  else "application/octet-stream".

End sniff.

(** A writer that nothing has been written to. *)
Definition newWriter : ResponseWriter :=
  {| wHeader := ∅; wSent := None; wBody := ""; wFail := None;
     wWire := None; wSniff := sniff.DetectContentType |}.

(** A stand-in for the text of a [*url.Error], [Op "URL": cause], with
    [Op] the method with its letters after the first in lower case
    ([Get] for no method), for methods and URLs in printable ASCII and
    URLs without a password: of the quoting of [%q], the double quote
    and the backslash are escaped and nothing else is. *)
Module urlerr.

Definition lower (c : ascii) : ascii :=
  if textproto.isUpper c then ascii_of_N (N_of_ascii c + textproto.toLower)
  else c.

Fixpoint lowerAll (s : string) : string :=
  match s with
  | EmptyString => EmptyString
  | String c rest => String (lower c) (lowerAll rest)
  end.

Definition urlErrorOp (method : string) : string :=
  match method with
  | EmptyString => "Get"
  | String c rest => String c (lowerAll rest)
  end.

Fixpoint escape (s : string) : string :=
  match s with
  | EmptyString => EmptyString
  | String c rest =>
      if Ascii.eqb c (ascii_of_nat 34) || Ascii.eqb c (ascii_of_nat 92)
      then String (ascii_of_nat 92) (String c (escape rest))
      else String c (escape rest)
  end.

Definition quote (s : string) : string :=
  String (ascii_of_nat 34) (escape s +:+ String (ascii_of_nat 34) "").

Definition text (first failed : Request.t) (redirect : option Response.t)
    (cause : error) : error :=
  let location :=
    match redirect with
    | Some resp => Header.Get "Location" (Response.Header resp)
    | None => url.String (Request.URL failed)
    end in
  urlErrorOp (Request.Method first) +:+ " " +:+ quote location +:+ ": "
  +:+ cause.

End urlerr.

(** [client.Do] reporting its failures in that text. *)
Definition goErrors : ClientErrors := urlerr.text.

(** The world at start: a cache, a network, nothing recorded. *)
Definition newWorld {C N} (c : C) (n : N) : World C N :=
  {| wCache := c; wNet := n; wTrace := [] |}.

(** ** What the specification says of the cache paths and of cloning

    These follow the words of the specification, to be compared with
    what the handler does. *)

Section Stated.

Context {C N : Type}.

(** The reply [w'] was served from the cache: it carries the
    cache-status marker, and between [σ] and [σ'] nothing went out on
    the network. *)
Definition servedFromCache (σ σ' : World C N) (w' : ResponseWriter) : Prop :=
  Header.Get "X-Cache" (sentHeader w') = "HIT"
  ∧ forallb (λ e, negb (isRoundTrip e))
            (drop (length (wTrace σ)) (wTrace σ')) = true.

(** The reply [w'], on a writer that was new, is the stored [entry]
    deserialized into headers and body, with the marker added: every
    header of the stored response is sent with its values, the marker
    is there, and the body is the stored body. *)
Definition servedAsStored (deserialize : string → HeaderMap * string)
    (entry : string) (w' : ResponseWriter) : Prop :=
  (∀ key values, fst (deserialize entry) !! key = Some values →
                 key ≠ "X-Cache" → wireHeader w' !! key = Some values)
  ∧ Header.Get "X-Cache" (wireHeader w') = "HIT"
  ∧ wBody w' = snd (deserialize entry).

End Stated.


(** ** A proxy, a request and an origin to run *)

Module Scenario.

#[local] Existing Instance goErrors.

Definition cfg : Config := {| AllowedDomains := []; ProxyTimeout := 30 |}.

Definition guarded : Config :=
  {| AllowedDomains := ["example.com"]; ProxyTimeout := 30 |}.

Definition target (host path : string) : url.URL :=
  {| url.Scheme := "http"; url.Host := host;
     url.String := "http://" +:+ host +:+ path |}.

Definition noBody : Body := {| bytes := ""; readErr := None |}.

(** [method http://host/path], with the given headers. *)
Definition request (method host path : string) (header : HeaderMap)
  : Request.t :=
  {| Request.Method := method;
     Request.URL := target host path;
     Request.Header := header;
     Request.Body := noBody;
     Request.Host := host;
     Request.RemoteAddr := "10.0.0.7:51000" |}.

(** [GET http://example.com/a], without headers. *)
Definition getA : Request.t := request "GET" "example.com" "/a" ∅.

(** A 200 with the given headers and body. *)
Definition ok (header : HeaderMap) (body : string) : Response.t :=
  {| Response.StatusCode := 200;
     Response.Header := header;
     Response.Body := {| bytes := body; readErr := None |} |}.

Definition page : Response.t :=
  ok {["Content-Type" := ["text/html"]]} "<p>a</p>".

(** An origin that answers every request with [page]. *)
Definition origin : Request.t → RoundTripResult := λ _, RTFinal page.

(** An origin that answers every request with a redirect to itself. *)
Definition looping : Request.t → RoundTripResult :=
  λ req, RTRedirect {| Response.StatusCode := 302;
                       Response.Header := {["Location" := ["/a"]]};
                       Response.Body := noBody |} req.

(** An origin that cannot be reached. *)
Definition down : Request.t → RoundTripResult :=
  λ _, RTError "dial tcp: connection refused".

(** The proxy without an allow-list. *)
Definition p : ProxyHandler := NewProxyHandler cfg.

(** [CONNECT evil.com:443]: a target with a host and no scheme. *)
Definition tunnel : Request.t :=
  {| Request.Method := "CONNECT";
     Request.URL := {| url.Scheme := ""; url.Host := "evil.com:443";
                       url.String := "//evil.com:443" |};
     Request.Header := ∅;
     Request.Body := noBody;
     Request.Host := "evil.com:443";
     Request.RemoteAddr := "10.0.0.7:51000" |}.

(** A cache that holds [entry] under the key of [getA]. *)
Definition stored (entry : string) : gmap string cache.Item :=
  {["GET:http://example.com/a" := {| cache.Value := entry |}]}.

(** A cache that holds nothing. *)
Definition empty : gmap string cache.Item := ∅.

(** The request that [cloneRequest] makes of [getA]. *)
Definition cloned : Request.t :=
  match cloneRequest tokenNewRequest p getA with
  | inr proxyReq => proxyReq
  | inl _ => getA
  end.

(** The world after [proxyReq] has been sent for [getA], starting with
    an empty cache and the network [net]. *)
Definition forwarded (net : Request.t → RoundTripResult)
  : World (gmap string cache.Item) (Request.t → RoundTripResult) :=
  from_option snd (newWorld empty net)
    (clientDo 10 p cloned (afterLookup p getA (newWorld empty net))).

(** [getA] served twice, the second time in the world that the first
    run left. *)
Definition firstRun :=
  ServeHTTP tokenNewRequest 10 p newWriter getA (newWorld empty origin).
Definition afterFirst := from_option snd (newWorld empty origin) firstRun.
Definition secondRun :=
  ServeHTTP tokenNewRequest 10 p newWriter getA afterFirst.

End Scenario.

(** ** Further notions for stating what the handler does *)

Section Chains.

Context {N : Type} `{!Network N} `{!ClientErrors}.

(** The network answers the chain that starts at [req] with exactly [k]
    redirects and then with the final response. *)
Fixpoint chainFinal (k : nat) (n : N) (req : Request.t) : option Response.t :=
  match k, roundTrip n req with
  | O, (RTFinal resp, _) => Some resp
  | S k, (RTRedirect _ next, n) => chainFinal k n next
  | _, _ => None
  end.

(** The redirect number [k], counted from none, of the chain that
    starts at [req]: the redirecting response and the request that
    follows it. *)
Fixpoint chainHop (k : nat) (n : N) (req : Request.t)
  : option (Response.t * Request.t) :=
  match roundTrip n req with
  | (RTRedirect resp next, n) =>
      match k with
      | O => Some (resp, next)
      | S k => chainHop k n next
      end
  | _ => None
  end.

End Chains.

(** A lookup in the cache. *)
Definition isCacheGet (e : Event) : bool :=
  match e with EvCacheGet _ => true | _ => false end.

(** The log line that [cacheResponse] writes. *)
Definition isWouldCache (e : Event) : bool :=
  match e with
  | EvLog line => strings.HasPrefix line "Would cache response for "
  | _ => false
  end.

(** The events recorded between [σ] and [σ']. *)
Definition newEvents {C N} (σ σ' : World C N) : list Event :=
  drop (length (wTrace σ)) (wTrace σ').

(** More requests, answers and networks to run. *)
Module Cases.

#[local] Existing Instance goErrors.

(** [GET http://example.com/a] with credentials. *)
Definition authorized : Request.t :=
  Scenario.request "GET" "example.com" "/a"
    {["Authorization" := ["Bearer s3cret"]]}.

(** A 404 with a body. *)
Definition missing : Response.t :=
  {| Response.StatusCode := 404;
     Response.Header := {["Content-Type" := ["text/plain"]]};
     Response.Body := {| bytes := "not here"; readErr := None |} |}.

(** A 200 whose body breaks off. *)
Definition broken : Response.t :=
  {| Response.StatusCode := 200;
     Response.Header := {["Content-Type" := ["text/html"]]};
     Response.Body := {| bytes := "<p>"; readErr := Some "unexpected EOF" |} |}.

(** A 200 that names a proxy of its own. *)
Definition branded : Response.t :=
  Scenario.ok {["X-Proxy-Server" := ["other/2.0"]; "Etag" := ["v1"; "v2"]]}
              "<p>a</p>".

(** An origin that answers every request with [resp]. *)
Definition always (resp : Response.t) : Request.t → RoundTripResult :=
  λ _, RTFinal resp.

(** A network that counts the requests it has seen: it redirects the
    first [hops] of them and answers [Scenario.page] afterwards. *)
Record Hops := { seen : nat; hops : nat }.

#[global] Instance hopsNet : Network Hops :=
  λ n req,
    (if (seen n <? hops n)%nat
     then RTRedirect {| Response.StatusCode := 302;
                        Response.Header := {["Location" := ["/next"]]};
                        Response.Body := Scenario.noBody |} req
     else RTFinal Scenario.page,
     {| seen := S (seen n); hops := hops n |}).

(** A writer whose client has gone away. *)
Definition hungUp : ResponseWriter :=
  {| wHeader := ∅; wSent := None; wBody := ""; wFail := Some "broken pipe";
     wWire := None; wSniff := sniff.DetectContentType |}.

(** A request with headers in mixed case, one of them twice. *)
Definition mixedCase : Request.t :=
  Scenario.request "GET" "example.com" "/a"
    {["accept" := ["text/html"]; "Accept" := ["*/*"];
      "connection" := ["keep-alive"]; "x-forwarded-for" := ["1.2.3.4"]]}.

(** A run of the proxy without allow-list, on an empty cache and the
    network [net]; the writer and the world it ends with. *)
Definition world (net : Request.t → RoundTripResult)
  : World (gmap string cache.Item) (Request.t → RoundTripResult) :=
  newWorld Scenario.empty net.

Definition run (net : Request.t → RoundTripResult) (w : ResponseWriter)
    (r : Request.t) :=
  ServeHTTP tokenNewRequest 10 Scenario.p w r (world net).

Definition answer (net : Request.t → RoundTripResult) (w : ResponseWriter)
    (r : Request.t) : ResponseWriter :=
  from_option fst w (run net w r).

Definition after (net : Request.t → RoundTripResult) (w : ResponseWriter)
    (r : Request.t) :=
  from_option snd (world net) (run net w r).

(** An allow-list with a blank entry. *)
Definition blank : Config :=
  {| AllowedDomains := ["example.com"; ""]; ProxyTimeout := 30 |}.

(** A timeout of some 292 years, in seconds. *)
Definition ages : Config :=
  {| AllowedDomains := []; ProxyTimeout := 9223372037 |}.

End Cases.

(** * Properties *)

(** ** Strings *)

Lemma append_cons (c : ascii) (a b : string) :
  String c a +:+ b = String c (a +:+ b).
Proof. reflexivity. Qed.

Lemma append_empty_l (s : string) : "" +:+ s = s.
Proof. reflexivity. Qed.

Lemma append_empty_r (s : string) : s +:+ "" = s.
Proof. induction s as [|c s IH]; [done | by rewrite append_cons, IH]. Qed.

Lemma append_assoc (a b c : string) : (a +:+ b) +:+ c = a +:+ b +:+ c.
Proof. induction a as [|x a IH]; [done | by rewrite !append_cons, IH]. Qed.

Lemma append_length (a b : string) :
  String.length (a +:+ b) = (String.length a + String.length b)%nat.
Proof.
  induction a as [|x a IH]; [done |]. rewrite append_cons. simpl. by rewrite IH.
Qed.

Lemma append_inj_l (a b c : string) : a +:+ b = a +:+ c → b = c.
Proof.
  induction a as [|x a IH]; [done |]. rewrite !append_cons. intros [= ?]; auto.
Qed.

Lemma append_inj_r (a b c : string) : a +:+ c = b +:+ c → a = b.
Proof.
  revert b. induction a as [|x a IH]; intros [|y b] Heq;
    rewrite ?append_cons, ?append_empty_l in Heq.
  - done.
  - apply (f_equal String.length) in Heq. simpl in Heq.
    rewrite append_length in Heq. lia.
  - apply (f_equal String.length) in Heq. simpl in Heq.
    rewrite append_length in Heq. lia.
  - injection Heq as -> Heq. f_equal. by apply IH.
Qed.

Lemma substring_all (s : string) : String.substring 0 (String.length s) s = s.
Proof. induction s as [|c s IH]; simpl; [done | by f_equal]. Qed.

Lemma substring_skip (a b : string) :
  String.substring (String.length a) (String.length b) (a +:+ b) = b.
Proof.
  induction a as [|c a IH]; [apply substring_all | by rewrite append_cons].
Qed.

Lemma substring_split (n : nat) (s : string) :
  (n ≤ String.length s)%nat →
  s = String.substring 0 n s +:+ String.substring n (String.length s - n) s.
Proof.
  revert n. induction s as [|c s IH]; intros [|n] Hn; simpl in *; try lia.
  - done.
  - by rewrite substring_all.
  - rewrite append_cons, <- IH by lia. done.
Qed.

Lemma HasPrefix_spec (s prefix : string) :
  strings.HasPrefix s prefix = true ↔ ∃ rest, s = prefix +:+ rest.
Proof.
  revert s. induction prefix as [|b prefix IH]; intros s.
  - destruct s; simpl; (split; [intros _; by eexists | done]).
  - destruct s as [|a s]; simpl.
    + split; [done | intros [rest [=]]].
    + rewrite andb_true_iff, Ascii.eqb_eq, IH. split.
      * intros [-> [rest ->]]. exists rest. by rewrite append_cons.
      * intros [rest Heq]. rewrite append_cons in Heq.
        injection Heq as -> ->. eauto.
Qed.

(** [strings.HasSuffix] is the suffix relation on byte strings. *)
Lemma HasSuffix_spec (s suffix : string) :
  strings.HasSuffix s suffix = true ↔ ∃ front, s = front +:+ suffix.
Proof.
  unfold strings.HasSuffix. rewrite andb_true_iff, Nat.leb_le, String.eqb_eq.
  split.
  - intros [Hlen Hsub].
    exists (String.substring 0 (String.length s - String.length suffix) s).
    pose proof (substring_split (String.length s - String.length suffix) s) as Hs.
    replace (String.length s - (String.length s - String.length suffix))%nat
      with (String.length suffix) in Hs by lia.
    rewrite Hsub in Hs. apply Hs. lia.
  - intros [front ->]. rewrite append_length. split; [lia |].
    replace (String.length front + String.length suffix - String.length suffix)%nat
      with (String.length front) by lia.
    apply substring_skip.
Qed.

Lemma indexFrom_unfold (i : Z) (s substr : string) :
  strings.indexFrom i s substr =
    if strings.HasPrefix s substr then i
    else match s with
         | EmptyString => -1
         | String _ s' => strings.indexFrom (i + 1) s' substr
         end.
Proof. by destruct s. Qed.

Lemma indexFrom_spec (i : Z) (s substr : string) :
  0 ≤ i →
  (0 <=? strings.indexFrom i s substr) = true
  ↔ ∃ front rest, s = front +:+ substr +:+ rest.
Proof.
  revert i. induction s as [|c s IH]; intros i Hi; rewrite indexFrom_unfold.
  - destruct (strings.HasPrefix "" substr) eqn:Hp.
    + apply HasPrefix_spec in Hp as [rest Hrest]. rewrite Z.leb_le.
      split; [intros _; by exists "", rest | intros _; lia].
    + split; [done |]. intros ([|? ?] & rest & Heq); [| done].
      rewrite append_empty_l in Heq.
      assert (strings.HasPrefix "" substr = true) as Hp'
        by (apply HasPrefix_spec; eauto).
      congruence.
  - destruct (strings.HasPrefix (String c s) substr) eqn:Hp.
    + apply HasPrefix_spec in Hp as [rest Hrest]. rewrite Z.leb_le.
      split; [intros _; by exists "", rest | intros _; lia].
    + rewrite IH by lia. split.
      * intros (front & rest & ->). by exists (String c front), rest.
      * intros ([|x front] & rest & Heq);
          rewrite ?append_cons, ?append_empty_l in Heq.
        -- assert (strings.HasPrefix (String c s) substr = true) as Hp'
             by (apply HasPrefix_spec; eauto).
           congruence.
        -- injection Heq as -> ->. eauto.
Qed.

(** [strings.Contains] is the substring relation on byte strings. *)
Lemma Contains_spec (s substr : string) :
  strings.Contains s substr = true
  ↔ ∃ front rest, s = front +:+ substr +:+ rest.
Proof. apply indexFrom_spec. lia. Qed.

(** ** Headers *)

Section HeaderFacts.

Implicit Types (h src dst : HeaderMap) (key k value : string).

Lemma values_Add k key value h :
  Header.values k (Header.Add key value h) =
    if decide (k = textproto.CanonicalMIMEHeaderKey key)
    then Header.values k h ++ [value]
    else Header.values k h.
Proof.
  unfold Header.values, Header.Add. case_decide as Hk.
  - subst k. by rewrite lookup_insert_eq.
  - by rewrite lookup_insert_ne.
Qed.

Lemma values_Set k key value h :
  Header.values k (Header.Set_ key value h) =
    if decide (k = textproto.CanonicalMIMEHeaderKey key)
    then [value]
    else Header.values k h.
Proof.
  unfold Header.values, Header.Set_. case_decide as Hk.
  - subst k. by rewrite lookup_insert_eq.
  - by rewrite lookup_insert_ne.
Qed.

Lemma values_Del k key h :
  Header.values k (Header.Del key h) =
    if decide (k = textproto.CanonicalMIMEHeaderKey key)
    then []
    else Header.values k h.
Proof.
  unfold Header.values, Header.Del. case_decide as Hk.
  - subst k. by rewrite lookup_delete_eq.
  - by rewrite lookup_delete_ne.
Qed.

(** The inner loop appends the values, in their order, under the
    canonical key. *)
Lemma values_addAll k key (vs : list string) h :
  Header.values k (Header.addAll key vs h) =
    if decide (k = textproto.CanonicalMIMEHeaderKey key)
    then Header.values k h ++ vs
    else Header.values k h.
Proof.
  unfold Header.addAll. revert h. induction vs as [|v vs IH]; intros h; simpl.
  - case_decide; [by rewrite app_nil_r | done].
  - rewrite IH, values_Add. case_decide; [by rewrite <- app_assoc | done].
Qed.

Lemma is_Some_addAll k key (vs : list string) h :
  is_Some (Header.addAll key vs h !! k) →
  is_Some (h !! k) ∨ (k = textproto.CanonicalMIMEHeaderKey key ∧ vs ≠ []).
Proof.
  unfold Header.addAll. revert h.
  induction vs as [|v vs IH]; intros h; simpl; [by left |].
  intros [Hs | [-> _]]%IH; [| by right].
  unfold Header.Add in Hs.
  destruct (decide (k = textproto.CanonicalMIMEHeaderKey key)) as [->|Hne].
  - by right.
  - rewrite lookup_insert_ne in Hs by done. by left.
Qed.

(** The outer loop, over entries with distinct canonical keys. *)
Lemma values_copyEntries (entries : list (string * list string)) dst k :
  NoDup entries.*1 →
  (∀ entry, entry ∈ entries →
            textproto.CanonicalMIMEHeaderKey entry.1 = entry.1) →
  Header.values k (Header.copyEntries entries dst) =
    Header.values k dst ++ Header.values k (list_to_map entries).
Proof.
  unfold Header.copyEntries. revert dst.
  induction entries as [|[i x] entries IH]; intros dst Hnd Hcan.
  - simpl. unfold Header.values at 3. by rewrite lookup_empty, app_nil_r.
  - cbn [fmap list_fmap fst] in Hnd. apply NoDup_cons in Hnd as [Hi Hnd].
    cbn [foldl fst snd].
    rewrite IH by (try done; intros; apply Hcan; by right).
    pose proof (Hcan (i, x) ltac:(left)) as Hcan_i. cbn [fst] in Hcan_i.
    rewrite values_addAll, Hcan_i, list_to_map_cons.
    case_decide as Hk.
    + subst k.
      apply (not_elem_of_list_to_map_1 (M := gmap string)) in Hi.
      unfold Header.values. rewrite lookup_insert_eq, Hi. simpl.
      by rewrite app_nil_r.
    + unfold Header.values. by rewrite lookup_insert_ne.
Qed.

(** Copying a map with canonical keys appends, key by key, its values
    to those of the destination, in whatever order the map is gone
    through. *)
Lemma values_copyEntries_any_order (entries : list (string * list string))
    src dst k :
  Header.canonicalKeys src →
  entries ≡ₚ map_to_list src →
  Header.values k (Header.copyEntries entries dst) =
    Header.values k dst ++ Header.values k src.
Proof.
  intros Hcan Hperm. rewrite values_copyEntries.
  - rewrite (list_to_map_proper entries (map_to_list src)), list_to_map_to_list;
      [done | | done].
    rewrite Hperm. apply NoDup_fst_map_to_list.
  - rewrite Hperm. apply NoDup_fst_map_to_list.
  - intros [i x] Hin. rewrite Hperm in Hin.
    apply elem_of_map_to_list in Hin. apply Hcan. eauto.
Qed.

Lemma values_copyInto src dst k :
  Header.canonicalKeys src →
  Header.values k (Header.copyInto src dst) =
    Header.values k dst ++ Header.values k src.
Proof. intros Hcan. by apply values_copyEntries_any_order. Qed.



Lemma Get_values key h :
  Header.Get key h =
    hd "" (Header.values (textproto.CanonicalMIMEHeaderKey key) h).
Proof.
  unfold Header.Get, Header.values.
  by destruct (h !! textproto.CanonicalMIMEHeaderKey key) as [[|? ?]|].
Qed.

End HeaderFacts.

(** ** The writer *)

Lemma status_Error (w : ResponseWriter) (msg : string) (code : Z) :
  wSent w = None → status (Error w msg code) = Some code.
Proof.
  intros Hw. unfold Error, Write, WriteHeader, onHeader, status. simpl.
  rewrite Hw. simpl. by destruct (wFail w).
Qed.

Lemma wSent_Write (b : string) (w : ResponseWriter) :
  wSent (fst (Write b w)) = wSent (WriteHeader StatusOK w).
Proof. unfold Write. by destruct (wFail (WriteHeader StatusOK w)). Qed.

Lemma wSent_WriteHeader_sent (code : Z) (w : ResponseWriter) :
  is_Some (wSent w) → WriteHeader code w = w.
Proof. intros [x Hx]. unfold WriteHeader. by rewrite Hx. Qed.

(** ** The stages of [ServeHTTP] *)

Section Pipeline.

Context {C N : Type} `{!cache.Cache C} `{!Network N} `{!ClientErrors}.
Variable NewRequest : string → string → Body → error + Request.t.

Implicit Types (p : ProxyHandler) (w : ResponseWriter) (r : Request.t)
               (σ : World C N) (fuel : nat).

Lemma validTarget_eqb r :
  validTarget r ↔
  String.eqb (url.Scheme (Request.URL r)) ""
  || String.eqb (url.Host (Request.URL r)) "" = false.
Proof.
  unfold validTarget. rewrite orb_false_iff, !String.eqb_neq. done.
Qed.

Lemma ServeHTTP_invalid fuel p w r σ :
  url.Scheme (Request.URL r) = "" ∨ url.Host (Request.URL r) = "" →
  ServeHTTP NewRequest fuel p w r σ =
    Some (Error w "Invalid proxy request. URL must include scheme and host."
                StatusBadRequest,
          log.Printf "Proxying request: %s %s"
            [fmt.ArgS (Request.Method r); fmt.ArgS (url.String (Request.URL r))] σ).
Proof.
  intros Hbad. unfold ServeHTTP.
  assert (String.eqb (url.Scheme (Request.URL r)) ""
          || String.eqb (url.Host (Request.URL r)) "" = true) as ->; [| done].
  apply orb_true_iff. rewrite !String.eqb_eq. done.
Qed.

Lemma ServeHTTP_forbidden fuel p w r σ :
  validTarget r →
  isDomainAllowed p (url.Host (Request.URL r)) = false →
  ServeHTTP NewRequest fuel p w r σ =
    Some (Error w "Domain not allowed" StatusForbidden,
          log.Printf "Proxying request: %s %s"
            [fmt.ArgS (Request.Method r); fmt.ArgS (url.String (Request.URL r))] σ).
Proof.
  intros Hv%validTarget_eqb Hd. unfold ServeHTTP. by rewrite Hv, Hd.
Qed.

(** A hit: the stored value goes through the two writers and the
    handler returns. *)
Lemma ServeHTTP_hit fuel p w r σ item c' :
  validTarget r →
  isDomainAllowed p (url.Host (Request.URL r)) = true →
  isCacheable p r = true →
  cache.Get (wCache σ) (createCacheKey p r) = (Some item, c') →
  ServeHTTP NewRequest fuel p w r σ =
    Some (writeCachedBody p (writeCachedHeaders p w (cache.Value item))
                          (cache.Value item),
          {| wCache := c'; wNet := wNet σ;
             wTrace := wTrace σ ++
               [EvLog (fmt.Sprintf "Proxying request: %s %s"
                         [fmt.ArgS (Request.Method r);
                          fmt.ArgS (url.String (Request.URL r))]);
                EvCacheGet (createCacheKey p r);
                EvLog (fmt.Sprintf "Cache hit for %s"
                         [fmt.ArgS (createCacheKey p r)])] |}).
Proof.
  intros Hv%validTarget_eqb Hd Hc Hget. unfold ServeHTTP.
  rewrite Hv, Hd, Hc. simpl. unfold cacheGet. simpl. rewrite Hget.
  unfold log.Printf. simpl. by rewrite <- !app_assoc.
Qed.

(** No answer from the cache: the request goes to the origin. *)
Lemma ServeHTTP_origin fuel p w r σ :
  validTarget r →
  isDomainAllowed p (url.Host (Request.URL r)) = true →
  cacheAnswer p r σ = None →
  ServeHTTP NewRequest fuel p w r σ =
    serveFromOrigin NewRequest fuel p w r (afterLookup p r σ).
Proof.
  intros Hv%validTarget_eqb Hd Hmiss. unfold ServeHTTP, cacheAnswer, afterLookup in *.
  rewrite Hv, Hd. simpl. destruct (isCacheable p r); [| done].
  unfold cacheGet. simpl.
  destruct (cache.Get (wCache σ) (createCacheKey p r)) as [found c'].
  simpl in Hmiss. by subst found.
Qed.

(** The lookup leaves the network alone and records no request. *)
Lemma afterLookup_wNet p r σ : wNet (afterLookup p r σ) = wNet σ.
Proof.
  unfold afterLookup, cacheGet. destruct (isCacheable p r); [| done]. simpl.
  by destruct (cache.Get (wCache σ) (createCacheKey p r)).
Qed.

Lemma afterLookup_wCache p r σ :
  wCache (afterLookup p r σ) =
    if isCacheable p r
    then snd (cache.Get (wCache σ) (createCacheKey p r))
    else wCache σ.
Proof.
  unfold afterLookup, cacheGet. destruct (isCacheable p r); [| done]. simpl.
  by destruct (cache.Get (wCache σ) (createCacheKey p r)).
Qed.

Lemma afterLookup_wTrace p r σ :
  ∃ evs, wTrace (afterLookup p r σ) = wTrace σ ++ evs
         ∧ forallb (λ e, negb (isRoundTrip e)) evs = true.
Proof.
  unfold afterLookup, cacheGet. destruct (isCacheable p r); simpl.
  - destruct (cache.Get (wCache σ) (createCacheKey p r)). simpl.
    rewrite <- !app_assoc. simpl. by eexists.
  - by eexists.
Qed.

(** The three ways out of the forwarding stage, by the status sent. *)
Lemma serveFromOrigin_cases fuel p w r σ w' σ' :
  wSent w = None →
  serveFromOrigin NewRequest fuel p w r σ = Some (w', σ') →
  (∃ err, cloneRequest NewRequest p r = inl err
          ∧ status w' = Some StatusInternalServerError ∧ σ' = σ)
  ∨ (∃ proxyReq err, cloneRequest NewRequest p r = inr proxyReq
          ∧ clientDo fuel p proxyReq σ = Some (inl err, σ')
          ∧ status w' = Some StatusBadGateway)
  ∨ (∃ proxyReq resp σ1, cloneRequest NewRequest p r = inr proxyReq
          ∧ clientDo fuel p proxyReq σ = Some (inr resp, σ1)
          ∧ status w' = Some (Response.StatusCode resp)
          ∧ wCache σ' = wCache σ1 ∧ wNet σ' = wNet σ1).
Proof.
  intros Hw. unfold serveFromOrigin.
  destruct (cloneRequest NewRequest p r) as [err|proxyReq].
  { intros [= <- <-]. left. exists err. by rewrite status_Error. }
  destruct (clientDo fuel p proxyReq σ) as [[[err|resp] σ1]|] eqn:Hdo;
    [| | done].
  { intros [= <- <-]. right; left. exists proxyReq, err.
    by rewrite status_Error. }
  intros Hrun. right; right. exists proxyReq, resp, σ1.
  split; [done |]. split; [done |].
  set (w1 := WriteHeader _ _) in Hrun.
  assert (wSent w1 = Some (Response.StatusCode resp, wHeader w1)) as Hs1.
  { unfold w1, WriteHeader. simpl. by rewrite Hw. }
  unfold io.ReadAll in Hrun.
  destruct (readErr (Response.Body resp)) as [err|].
  { injection Hrun as <- <-. unfold status. by rewrite Hs1. }
  destruct (Write (bytes (Response.Body resp)) w1) as [w2 werr] eqn:Hwr.
  assert (wSent w2 = wSent w1) as Hs2.
  { change w2 with (fst (w2, werr)). rewrite <- Hwr, wSent_Write.
    rewrite wSent_WriteHeader_sent; [done | by rewrite Hs1]. }
  assert (status w2 = Some (Response.StatusCode resp)) as Hst
    by (unfold status; by rewrite Hs2, Hs1).
  destruct werr; injection Hrun as <- <-;
    (split; [done |]); unfold cacheResponse;
    by destruct (isCacheable p r && isResponseCacheable p resp).
Qed.

End Pipeline.

(** ** The cache key *)

Lemma createCacheKey_eq (p : ProxyHandler) (r : Request.t) :
  createCacheKey p r = Request.Method r +:+ ":" +:+ url.String (Request.URL r).
Proof.
  unfold createCacheKey. simpl. unfold fmt.showArg.
  by rewrite append_empty_r.
Qed.

(** C8: [createCacheKey] is the function that joins the method and the
    text of the URL with a colon, whatever the handler; equal methods and
    equal URL texts give equal keys; with the URL text fixed, two methods
    that differ give keys that differ; with the method fixed, two URL
    texts that differ give keys that differ. *)
Theorem createCacheKey_determined (p p' : ProxyHandler) (r r' : Request.t) :
  createCacheKey p r = Request.Method r +:+ ":" +:+ url.String (Request.URL r)
  ∧ (Request.Method r = Request.Method r' →
     url.String (Request.URL r) = url.String (Request.URL r') →
     createCacheKey p r = createCacheKey p' r')
  ∧ (url.String (Request.URL r) = url.String (Request.URL r') →
     Request.Method r ≠ Request.Method r' →
     createCacheKey p r ≠ createCacheKey p' r')
  ∧ (Request.Method r = Request.Method r' →
     url.String (Request.URL r) ≠ url.String (Request.URL r') →
     createCacheKey p r ≠ createCacheKey p' r').
Proof.
  rewrite !createCacheKey_eq. repeat split.
  - by intros -> ->.
  - intros -> Hm Hk. apply Hm. eapply append_inj_r, Hk.
  - intros -> Hu Hk. apply Hu.
    apply append_inj_l in Hk. by apply (append_inj_l ":") in Hk.
Qed.

(** ** Validation and the allow-list *)

Section Gatekeeper.

Context {C N : Type} `{!cache.Cache C} `{!Network N} `{!ClientErrors}.
Variable NewRequest : string → string → Body → error + Request.t.

Implicit Types (p : ProxyHandler) (w : ResponseWriter) (r : Request.t)
               (σ : World C N) (fuel : nat).

(** C6: a request whose target lacks a scheme or a host is answered
    with 400, whatever its method, its headers and the allow-list; the
    cache and the network are left as they were, and the only thing
    recorded is the first log line: no lookup, no request sent. *)
Theorem invalid_target_is_400 fuel p w r σ :
  wSent w = None →
  url.Scheme (Request.URL r) = "" ∨ url.Host (Request.URL r) = "" →
  ∃ w' σ',
    ServeHTTP NewRequest fuel p w r σ = Some (w', σ')
    ∧ status w' = Some StatusBadRequest
    ∧ wCache σ' = wCache σ
    ∧ wNet σ' = wNet σ
    ∧ ∃ line, wTrace σ' = wTrace σ ++ [EvLog line].
Proof.
  intros Hw Hbad. rewrite ServeHTTP_invalid by done.
  eexists _, _. split; [done |].
  rewrite status_Error by done. repeat split. by eexists.
Qed.

Lemma isDomainAllowed_empty p host :
  AllowedDomains (config p) = [] → isDomainAllowed p host = true.
Proof. unfold isDomainAllowed. by intros ->. Qed.

Lemma isDomainAllowed_suffix p host :
  AllowedDomains (config p) ≠ [] →
  isDomainAllowed p host = true
  ↔ ∃ domain front,
      domain ∈ AllowedDomains (config p) ∧ host = front +:+ domain.
Proof.
  intros Hne. unfold isDomainAllowed.
  destruct (AllowedDomains (config p)) as [|d ds] eqn:Hl; [done |].
  change (length (d :: ds) =? 0)%nat with false. cbv iota.
  rewrite existsb_exists. split.
  - intros (domain & Hin%list_elem_of_In & [front ->]%HasSuffix_spec).
    by exists domain, front.
  - intros (domain & front & Hin%list_elem_of_In & ->).
    exists domain. split; [done |]. apply HasSuffix_spec. by exists front.
Qed.

(** The match is on bytes, not on labels: a host that merely ends in a
    configured string passes. *)
Example isDomainAllowed_not_label_aware :
  isDomainAllowed (NewProxyHandler Scenario.guarded) "notexample.com" = true.
Proof. reflexivity. Qed.

(** C3: with an empty allow-list every host is allowed, and a 403 that
    the client sees is then the status the origin answered, relayed;
    with a non-empty allow-list a host is allowed exactly when one of
    the configured strings is a suffix of it, byte for byte; a request
    in proxy form whose host is not allowed is answered with 403; with
    ["example.com"] configured, api.example.com passes, evil.com and
    api.EXAMPLE.com do not. *)
Theorem isDomainAllowed_allow_list fuel p w r σ host :
  (AllowedDomains (config p) = [] → isDomainAllowed p host = true)
  ∧ (AllowedDomains (config p) = [] → wSent w = None →
     ∀ w' σ', ServeHTTP NewRequest fuel p w r σ = Some (w', σ') →
       status w' = Some StatusForbidden →
       ∃ proxyReq resp σ1,
         clientDo fuel p proxyReq (afterLookup p r σ) = Some (inr resp, σ1)
         ∧ Response.StatusCode resp = StatusForbidden)
  ∧ (AllowedDomains (config p) ≠ [] →
     (isDomainAllowed p host = true
      ↔ ∃ domain front,
          domain ∈ AllowedDomains (config p) ∧ host = front +:+ domain))
  ∧ (wSent w = None → validTarget r →
     isDomainAllowed p (url.Host (Request.URL r)) = false →
     ∃ w' σ', ServeHTTP NewRequest fuel p w r σ = Some (w', σ')
              ∧ status w' = Some StatusForbidden)
  ∧ isDomainAllowed (NewProxyHandler Scenario.guarded) "api.example.com" = true
  ∧ isDomainAllowed (NewProxyHandler Scenario.guarded) "evil.com" = false
  ∧ isDomainAllowed (NewProxyHandler Scenario.guarded) "api.EXAMPLE.com" = false.
Proof.
  split; [apply isDomainAllowed_empty |].
  split; [| split; [apply isDomainAllowed_suffix |
            split; [| by vm_compute]]].
  - intros Hempty Hw w' σ' Hrun Hst.
    destruct (decide (url.Scheme (Request.URL r) = ""
                      ∨ url.Host (Request.URL r) = "")) as [Hbad|Hok].
    { rewrite ServeHTTP_invalid in Hrun by done. injection Hrun as <- <-.
      rewrite status_Error in Hst by done. done. }
    assert (validTarget r) as Hv by (unfold validTarget; tauto).
    pose proof (isDomainAllowed_empty p (url.Host (Request.URL r)) Hempty) as Hd.
    destruct (cacheAnswer p r σ) as [item|] eqn:Hans.
    { unfold cacheAnswer in Hans.
      destruct (isCacheable p r) eqn:Hc; [| done].
      destruct (cache.Get (wCache σ) (createCacheKey p r)) as [found c'] eqn:Hget.
      simpl in Hans. subst found.
      rewrite (ServeHTTP_hit _ _ _ _ _ _ _ _ Hv Hd Hc Hget) in Hrun.
      injection Hrun as <- <-.
      unfold writeCachedBody, writeCachedHeaders in Hst.
      unfold status in Hst. rewrite wSent_Write in Hst.
      unfold WriteHeader, onHeader in Hst. simpl in Hst.
      rewrite Hw in Hst. done. }
    rewrite ServeHTTP_origin in Hrun by done.
    apply serveFromOrigin_cases in Hrun
      as [(err & _ & Hst' & _) | [(? & err & _ & _ & Hst')
                                 | (proxyReq & resp & σ1 & _ & Hdo & Hst' & _)]];
      [rewrite Hst' in Hst; discriminate Hst
      | rewrite Hst' in Hst; discriminate Hst | | done].
    exists proxyReq, resp, σ1. split; [done | congruence].
  - intros Hw Hv Hd. rewrite ServeHTTP_forbidden by done.
    eexists _, _. split; [done |]. by apply status_Error.
Qed.

(** C10: when the outbound request cannot be built, the client is
    answered with 500, which is none of 400, 403 and 502; the network
    is as it was and nothing was sent on it, and the cache is as the
    lookup left it, or as it was when there was no lookup. *)
Theorem clone_failure_is_500 fuel p w r σ err :
  wSent w = None →
  validTarget r →
  isDomainAllowed p (url.Host (Request.URL r)) = true →
  cacheAnswer p r σ = None →
  cloneRequest NewRequest p r = inl err →
  ∃ w' σ',
    ServeHTTP NewRequest fuel p w r σ = Some (w', σ')
    ∧ status w' = Some StatusInternalServerError
    ∧ (StatusInternalServerError
         ∉ [StatusBadRequest; StatusForbidden; StatusBadGateway])
    ∧ wNet σ' = wNet σ
    ∧ wCache σ' = (if isCacheable p r
                   then snd (cache.Get (wCache σ) (createCacheKey p r))
                   else wCache σ)
    ∧ ∃ evs, wTrace σ' = wTrace σ ++ evs
             ∧ forallb (λ e, negb (isRoundTrip e)) evs = true.
Proof.
  intros Hw Hv Hd Hmiss Hclone. rewrite ServeHTTP_origin by done.
  unfold serveFromOrigin. rewrite Hclone. eexists _, _. split; [done |].
  split; [by apply status_Error |].
  split; [compute_done |].
  split; [apply afterLookup_wNet |].
  split; [apply afterLookup_wCache | apply afterLookup_wTrace].
Qed.

End Gatekeeper.

(** ** Forwarding *)

Section Forwarding.

Context {C N : Type} `{!cache.Cache C} `{!Network N} `{!ClientErrors}.
Variable NewRequest : string → string → Body → error + Request.t.

Implicit Types (p : ProxyHandler) (w : ResponseWriter) (r req : Request.t)
               (σ : World C N) (n : N) (fuel k : nat) (c : Client)
               (reqs sent : list Request.t).

(** The policy that [NewProxyHandler] installs lets a redirect through
    exactly when fewer than ten requests have been made. *)
Lemma CheckRedirect_NewProxyHandler cfg req reqs :
  CheckRedirect (client (NewProxyHandler cfg)) req reqs = None
  ↔ (length reqs < 10)%nat.
Proof.
  cbv [NewProxyHandler client CheckRedirect].
  destruct (Nat.leb_spec 10 (length reqs)); split; intros; done || lia.
Qed.

(** The first request of a call stays the first as requests are made. *)
Lemma hd_snoc {A} (l : list A) (x d : A) : hd d (l ++ [x]) = hd x l.
Proof. by destruct l. Qed.

(** Under a policy that refuses from the tenth request on, the loop
    ends within ten rounds. *)
Lemma Do_ends c fuel reqs req n :
  (∀ next via, CheckRedirect c next via = None → (length via < 10)%nat) →
  (0 < fuel)%nat → (10 ≤ length reqs + fuel)%nat →
  is_Some (Do fuel c reqs req n).
Proof.
  intros Hpol. revert reqs req n.
  induction fuel as [|fuel IH]; intros reqs req n Hpos Hfuel; [lia |].
  simpl. destruct (roundTrip n req) as [[err|resp|resp next] n']; [by eexists.. |].
  destruct (CheckRedirect c next (reqs ++ [req])) as [err|] eqn:Hchk;
    [by eexists |].
  apply Hpol in Hchk. rewrite length_app in Hchk. simpl in Hchk.
  apply IH; [lia |]. rewrite length_app. simpl. lia.
Qed.

(** It never sends an eleventh request. *)
Lemma Do_sent c fuel reqs req n res n' sent :
  (∀ next via, CheckRedirect c next via = None → (length via < 10)%nat) →
  (length reqs < 10)%nat →
  Do fuel c reqs req n = Some (res, n', sent) →
  (length sent ≤ 10)%nat.
Proof.
  intros Hpol. revert reqs req n.
  induction fuel as [|fuel IH]; intros reqs req n Hlen; [done |].
  simpl.
  assert (length (reqs ++ [req]) ≤ 10)%nat as Hlen'
    by (rewrite length_app; simpl; lia).
  destruct (roundTrip n req) as [[err|resp|resp next] n1];
    [by intros [= <- <- <-].. |].
  destruct (CheckRedirect c next (reqs ++ [req])) as [err|] eqn:Hchk;
    [by intros [= <- <- <-] |].
  apply Hpol in Hchk. by apply IH.
Qed.

(** When the network keeps redirecting until ten requests have been
    made, the policy stops the call with its error. *)
Lemma Do_redirected cfg fuel k reqs req n :
  (0 < k)%nat → (10 ≤ length reqs + k)%nat → (10 ≤ length reqs + fuel)%nat →
  (0 < fuel)%nat →
  redirectChain k n req = true →
  ∃ next resp n' sent,
    Do fuel (client (NewProxyHandler cfg)) reqs req n
    = Some (inl (urlError (hd req reqs) next (Some resp)
                   (fmt.Errorf "stopped after 10 redirects")), n', sent).
Proof.
  revert fuel reqs req n.
  induction k as [|k IH]; intros fuel reqs req n Hk Hlen Hfuel Hpos Hchain;
    [lia |].
  destruct fuel as [|fuel]; [lia |]. simpl in Hchain.
  cbn [Do]. cbv [NewProxyHandler client CheckRedirect].
  rewrite hd_snoc.
  destruct (roundTrip n req) as [[err|resp|resp next] n1]; [done.. |].
  destruct (Nat.leb_spec 10 (length (reqs ++ [req]))) as [Hle|Hle];
    [by eexists _, _, _, _ |].
  rewrite length_app in Hle. simpl in Hle.
  destruct (IH fuel (reqs ++ [req]) next n1) as (nx & rs & n' & sent & Hdo);
    rewrite ?length_app; simpl; try lia; [done |].
  rewrite hd_snoc in Hdo. by eexists _, _, _, _.
Qed.

Lemma redirectChain_le k k' n req :
  (k ≤ k')%nat → redirectChain k' n req = true → redirectChain k n req = true.
Proof.
  revert k' n req. induction k as [|k IH]; intros [|k'] n req Hle; simpl;
    [done | done | lia |].
  destruct (roundTrip n req) as [[err|resp|resp next] n1]; [done.. |].
  apply IH. lia.
Qed.

(** C5: the client of the handler lets a redirect through only while
    fewer than ten requests have been made; its calls end and never
    send more than ten requests; a call that meets a chain of eleven
    redirects ends with an error; and every call that ends with an
    error, whatever the error, is answered to the client with 502. *)
Theorem forward_failure_is_502 cfg fuel w r σ proxyReq :
  let p := NewProxyHandler cfg in
  (∀ next via, CheckRedirect (client p) next via = None
               ↔ (length via < 10)%nat)
  ∧ ((10 ≤ fuel)%nat → is_Some (clientDo fuel p proxyReq σ))
  ∧ (∀ res n' sent, Do fuel (client p) [] proxyReq (wNet σ) = Some (res, n', sent) →
                    (length sent ≤ 10)%nat)
  ∧ ((10 ≤ fuel)%nat → redirectChain 11 (wNet σ) proxyReq = true →
     ∃ err σ', clientDo fuel p proxyReq σ = Some (inl err, σ'))
  ∧ (wSent w = None → validTarget r →
     isDomainAllowed p (url.Host (Request.URL r)) = true →
     cacheAnswer p r σ = None →
     cloneRequest NewRequest p r = inr proxyReq →
     ∀ err σ', clientDo fuel p proxyReq (afterLookup p r σ) = Some (inl err, σ') →
       ∃ w', ServeHTTP NewRequest fuel p w r σ = Some (w', σ')
             ∧ status w' = Some StatusBadGateway).
Proof.
  intros p.
  assert (∀ next via, CheckRedirect (client p) next via = None
                      → (length via < 10)%nat) as Hpol
    by (intros ? ?; apply CheckRedirect_NewProxyHandler).
  split; [intros; apply CheckRedirect_NewProxyHandler |].
  split; [| split; [| split]].
  - intros Hfuel. unfold clientDo.
    destruct (Do_ends (client p) fuel [] proxyReq (wNet σ) Hpol)
      as [[[res n'] sent] ->]; simpl; [lia.. | by eexists].
  - intros res n' sent. apply Do_sent; simpl; [done | lia].
  - intros Hfuel Hchain.
    apply (redirectChain_le 10) in Hchain; [| lia].
    destruct (Do_redirected cfg fuel 10 [] proxyReq (wNet σ))
      as (nx & rs & n' & sent & Hdo); simpl; try lia; [done |].
    unfold clientDo. fold p in Hdo. rewrite Hdo. by eexists _, _.
  - intros Hw Hv Hd Hmiss Hclone err σ' Hdo.
    rewrite ServeHTTP_origin by done.
    unfold serveFromOrigin. rewrite Hclone, Hdo.
    eexists. split; [done |]. by apply status_Error.
Qed.

End Forwarding.

(** ** The cache paths *)

Section CachePaths.

Context {C N : Type} `{!cache.Cache C} `{!Network N} `{!ClientErrors}.
Variable NewRequest : string → string → Body → error + Request.t.

Implicit Types (p : ProxyHandler) (w : ResponseWriter) (r : Request.t)
               (σ : World C N) (fuel : nat).

(** [cacheResponse] adds one log line and leaves the cache and the
    network as they are. *)
Lemma cacheResponse_only_logs p key resp body σ :
  wCache (cacheResponse p key resp body σ) = wCache σ
  ∧ wNet (cacheResponse p key resp body σ) = wNet σ
  ∧ wTrace (cacheResponse p key resp body σ) =
      wTrace σ ++
        [EvLog ("Would cache response for " +:+ key +:+ " ("
                +:+ fmt.showArg (fmt.ArgD (Z.of_nat (String.length body)))
                +:+ " bytes)")].
Proof. done. Qed.

(** The headers that go out with the first data of a writer that was
    new. *)
Lemma wWire_Write (b : string) (w : ResponseWriter) :
  wSent w = None → wWire w = None →
  wWire (fst (Write b w)) =
    if bool_decide (wFail w = None) && negb (bool_decide (b = ""))
    then Some (if sniffs StatusOK (wHeader w)
               then Header.Set_ "Content-Type" (wSniff w b) (wHeader w)
               else wHeader w)
    else None.
Proof.
  intros Hw Hwire. unfold Write, WriteHeader. rewrite Hw. cbn [wFail].
  destruct (wFail w) as [err|]; cbn; [done |].
  unfold flushed. cbn. rewrite Hwire.
  case_bool_decide; [done |]. by destruct (sniffs StatusOK (wHeader w)).
Qed.

(** On a hit every header that the client receives, but for the content
    type, is a header of the writer or the marker. *)
Lemma hit_headers_on_the_wire fuel p w r σ item c' :
  wSent w = None →
  wWire w = None →
  validTarget r →
  isDomainAllowed p (url.Host (Request.URL r)) = true →
  isCacheable p r = true →
  cache.Get (wCache σ) (createCacheKey p r) = (Some item, c') →
  ∃ w' σ',
    ServeHTTP NewRequest fuel p w r σ = Some (w', σ')
    ∧ ∀ key, key ≠ "Content-Type" →
        wireHeader w' !! key = Header.Set_ "X-Cache" "HIT" (wHeader w) !! key.
Proof.
  intros Hw Hwire Hv Hd Hc Hget.
  rewrite (ServeHTTP_hit NewRequest fuel p w r σ item c') by done.
  eexists _, _. split; [done |]. intros key Hkey.
  unfold wireHeader, sentHeader, writeCachedBody, writeCachedHeaders.
  rewrite wWire_Write, wSent_Write by done.
  unfold WriteHeader, onHeader. simpl. rewrite Hw. simpl.
  destruct (_ && _); [| done].
  destruct (sniffs _ _); [| done].
  cbn. unfold Header.Set_ at 1. by rewrite lookup_insert_ne.
Qed.

(** C2, as the handler has it: on a hit the handler sends status 200
    and the headers of the writer with [X-Cache: HIT] set, writes the
    stored value as the body, byte for byte, and returns; the client
    receives these headers and, when they name no content type and no
    encoding and the stored value is not empty, a [Content-Type] that
    the server detects in the stored bytes; nothing of the stored value
    is read into the headers; the network is as it was and no request
    was sent on it. *)
Theorem cache_hit_is_served_raw fuel p w r σ item c' :
  wSent w = None →
  wWire w = None →
  validTarget r →
  isDomainAllowed p (url.Host (Request.URL r)) = true →
  isCacheable p r = true →
  cache.Get (wCache σ) (createCacheKey p r) = (Some item, c') →
  let header := Header.Set_ "X-Cache" "HIT" (wHeader w) in
  ∃ w' σ',
    ServeHTTP NewRequest fuel p w r σ = Some (w', σ')
    ∧ servedFromCache σ σ' w'
    ∧ status w' = Some StatusOK
    ∧ (wFail w = None → cache.Value item ≠ "" →
       sniffs StatusOK header = true →
       wireHeader w'
       = Header.Set_ "Content-Type" (wSniff w (cache.Value item)) header)
    ∧ (wFail w ≠ None ∨ cache.Value item = ""
       ∨ sniffs StatusOK header = false →
       wireHeader w' = header)
    ∧ (∀ key, key ≠ "Content-Type" → wireHeader w' !! key = header !! key)
    ∧ (wFail w = None → wBody w' = wBody w +:+ cache.Value item)
    ∧ wNet σ' = wNet σ
    ∧ wCache σ' = c'.
Proof.
  intros Hw Hwire Hv Hd Hc Hget header.
  rewrite (ServeHTTP_hit NewRequest fuel p w r σ item c') by done.
  eexists _, _. split; [done |].
  set (w' := writeCachedBody p (writeCachedHeaders p w (cache.Value item))
                             (cache.Value item)).
  assert (wSent w' = Some (StatusOK, header)) as Hs.
  { unfold w', writeCachedBody, writeCachedHeaders. rewrite wSent_Write.
    unfold WriteHeader, onHeader. simpl. by rewrite Hw. }
  assert (wWire w' =
            if bool_decide (wFail w = None)
               && negb (bool_decide (cache.Value item = ""))
            then Some (if sniffs StatusOK header
                       then Header.Set_ "Content-Type"
                              (wSniff w (cache.Value item)) header
                       else header)
            else None) as Hwr.
  { unfold w', writeCachedBody, writeCachedHeaders.
    by rewrite wWire_Write. }
  assert (Header.Get "X-Cache" header = "HIT") as Hmark.
  { unfold header, Header.Get, Header.Set_. by rewrite lookup_insert_eq. }
  split; [| split; [| split; [| split; [| split; [| split]]]]].
  - unfold servedFromCache, sentHeader. rewrite Hs. simpl.
    split; [done |]. by rewrite drop_app_length.
  - unfold status. by rewrite Hs.
  - intros Hf Hne Hsn. unfold wireHeader. rewrite Hwr, Hsn.
    rewrite bool_decide_true by done. by rewrite bool_decide_false.
  - intros Hcase. unfold wireHeader, sentHeader. rewrite Hwr, Hs.
    destruct Hcase as [Hf | [He | Hsn]].
    + by rewrite bool_decide_false.
    + rewrite (bool_decide_true (cache.Value item = "")) by done.
      by rewrite andb_false_r.
    + rewrite Hsn. by destruct (_ && _).
  - intros key Hkey. unfold wireHeader, sentHeader. rewrite Hwr, Hs.
    destruct (_ && _); [| done].
    destruct (sniffs StatusOK header); [| done].
    cbn. unfold Header.Set_ at 1. by rewrite lookup_insert_ne.
  - intros Hf. unfold w', writeCachedBody, writeCachedHeaders, Write,
      WriteHeader, onHeader. simpl. rewrite Hw. simpl. by rewrite Hf.
  - done.
Qed.

(** C1, as the handler has it: after a forward that succeeded and whose
    body was read, when request and response are both cacheable,
    [cacheResponse] is called with the key of the request and writes
    the log line that says what it would cache; nothing is handed to
    the cache, which is as the lookup left it. *)
Theorem cacheable_response_is_only_logged
    fuel p w r σ proxyReq resp σ1 :
  validTarget r →
  isDomainAllowed p (url.Host (Request.URL r)) = true →
  cacheAnswer p r σ = None →
  cloneRequest NewRequest p r = inr proxyReq →
  clientDo fuel p proxyReq (afterLookup p r σ) = Some (inr resp, σ1) →
  readErr (Response.Body resp) = None →
  isCacheable p r = true →
  isResponseCacheable p resp = true →
  ∃ w' σ',
    ServeHTTP NewRequest fuel p w r σ = Some (w', σ')
    ∧ wCache σ' = snd (cache.Get (wCache σ) (createCacheKey p r))
    ∧ wNet σ' = wNet σ1
    ∧ ∃ tail,
        wTrace σ' =
          wTrace σ1 ++
            EvLog ("Would cache response for " +:+ createCacheKey p r +:+ " ("
                   +:+ fmt.showArg
                         (fmt.ArgD (Z.of_nat (String.length
                                                (bytes (Response.Body resp)))))
                   +:+ " bytes)")
            :: tail
        ∧ (wFail w = None → tail = [])
        ∧ forallb (λ e, negb (isRoundTrip e)) tail = true.
Proof.
  intros Hv Hd Hmiss Hclone Hdo Hread Hc Hrc.
  rewrite ServeHTTP_origin by done.
  unfold serveFromOrigin. rewrite Hclone, Hdo. unfold io.ReadAll.
  rewrite Hread, Hc, Hrc. cbn [andb].
  assert (wCache σ1 = snd (cache.Get (wCache σ) (createCacheKey p r))) as Hcache.
  { unfold clientDo in Hdo.
    destruct (Do fuel (client p) [] proxyReq (wNet (afterLookup p r σ)))
      as [[[res n'] sent]|]; [| done].
    injection Hdo as _ <-. simpl. by rewrite afterLookup_wCache, Hc. }
  set (w1 := WriteHeader _ _).
  destruct (cacheResponse_only_logs p (createCacheKey p r) resp
              (bytes (Response.Body resp)) σ1) as (_ & _ & Hlog).
  destruct (Write (bytes (Response.Body resp)) w1) as [w2 [err|]] eqn:Hwr;
    eexists _, _; (split; [done |]); (split; [done |]); (split; [done |]).
  - eexists [_]. split.
    { unfold log.Printf at 1. cbn [wTrace]. by rewrite Hlog, <- app_assoc. }
    split; [| done].
    intros Hf. unfold Write in Hwr.
    assert (wFail (WriteHeader StatusOK w1) = None) as Hf'
      by (unfold w1, WriteHeader, onHeader; simpl; by destruct (wSent w)).
    rewrite Hf' in Hwr. done.
  - by exists [].
Qed.

End CachePaths.

(** ** Cloning *)

Section Cloning.

Variable NewRequest : string → string → Body → error + Request.t.


End Cloning.

(** ** The two predicates *)

Lemma cacheables_NewProxyHandler (cfg : Config) (method : string) :
  default false (cacheables (NewProxyHandler cfg) !! method) = true
  ↔ method = "GET" ∨ method = "HEAD".
Proof.
  cbn [NewProxyHandler cacheables]. unfold MethodHead, MethodGet.
  destruct (decide (method = "HEAD")) as [->|Hh].
  { rewrite lookup_insert_eq. simpl. tauto. }
  rewrite lookup_insert_ne by done.
  destruct (decide (method = "GET")) as [->|Hg].
  { rewrite lookup_insert_eq. simpl. tauto. }
  rewrite lookup_insert_ne, lookup_empty by done. simpl.
  split; [done | tauto].
Qed.

(** What [isCacheable] computes: the method is GET or HEAD, the first
    [Authorization] value is empty or there is none, and the first
    [Cache-Control] value does not contain [no-store]. *)
Lemma isCacheable_iff (cfg : Config) (r : Request.t) :
  isCacheable (NewProxyHandler cfg) r = true
  ↔ (Request.Method r = "GET" ∨ Request.Method r = "HEAD")
    ∧ Header.Get "Authorization" (Request.Header r) = ""
    ∧ strings.Contains (Header.Get "Cache-Control" (Request.Header r))
                       "no-store" = false.
Proof.
  unfold isCacheable.
  destruct (default false (cacheables (NewProxyHandler cfg) !! Request.Method r))
    eqn:Hm; simpl.
  - apply cacheables_NewProxyHandler in Hm.
    destruct (String.eqb_spec (Header.Get "Authorization" (Request.Header r)) "")
      as [Ha|Ha]; simpl.
    + rewrite negb_true_iff. tauto.
    + split; [done | tauto].
  - split; [done |]. intros [Hm' _].
    apply (cacheables_NewProxyHandler cfg) in Hm'. congruence.
Qed.

(** What [isResponseCacheable] computes: the status is 200, the first
    [Cache-Control] value does not contain [no-store], and the first
    [Set-Cookie] value is empty or there is none. *)
Lemma isResponseCacheable_iff (p : ProxyHandler) (resp : Response.t) :
  isResponseCacheable p resp = true
  ↔ Response.StatusCode resp = 200
    ∧ strings.Contains (Header.Get "Cache-Control" (Response.Header resp))
                       "no-store" = false
    ∧ Header.Get "Set-Cookie" (Response.Header resp) = "".
Proof.
  unfold isResponseCacheable, StatusOK.
  destruct (Z.eqb_spec (Response.StatusCode resp) 200) as [Hs|Hs]; simpl;
    [| split; [done | tauto]].
  destruct (strings.Contains _ _); [split; [done | intros (_ & ? & _); done] |].
  destruct (String.eqb_spec (Header.Get "Set-Cookie" (Response.Header resp)) "")
    as [Hc|Hc]; simpl; [tauto | split; [done | tauto]].
Qed.

Lemma isCacheable_POST (cfg : Config) (r : Request.t) :
  Request.Method r = "POST" → isCacheable (NewProxyHandler cfg) r = false.
Proof.
  intros Hm. apply not_true_is_false. rewrite isCacheable_iff, Hm.
  by intros [[?|?] _].
Qed.

Lemma isCacheable_bare_GET (cfg : Config) (r : Request.t) :
  Request.Method r = "GET" → Request.Header r = ∅ →
  isCacheable (NewProxyHandler cfg) r = true.
Proof.
  intros Hm Hh. apply isCacheable_iff. rewrite Hm, Hh. by vm_compute; auto.
Qed.

Lemma isResponseCacheable_not_200 (p : ProxyHandler) (resp : Response.t) :
  Response.StatusCode resp ≠ 200 → isResponseCacheable p resp = false.
Proof.
  intros Hs. apply not_true_is_false. rewrite isResponseCacheable_iff. tauto.
Qed.

(** C4, where the handler departs from it: a GET request that carries an
    [Authorization] header whose first value is empty, alone or followed
    by credentials, is found cacheable, and so is one whose [no-store]
    comes in a second [Cache-Control] line: only the first value of
    either header is read. *)
Theorem isCacheable_reads_first_value_only (cfg : Config) :
  let p := NewProxyHandler cfg in
  let get := Scenario.request "GET" "example.com" "/a" in
  (Header.present "Authorization" {["Authorization" := [""]]}
   ∧ isCacheable p (get {["Authorization" := [""]]}) = true)
  ∧ (Header.present "Authorization" {["Authorization" := [""; "Bearer s3cret"]]}
     ∧ isCacheable p (get {["Authorization" := [""; "Bearer s3cret"]]}) = true)
  ∧ (Header.mentions "Cache-Control" "no-store"
       {["Cache-Control" := ["max-age=0"; "no-store"]]}
     ∧ isCacheable p (get {["Cache-Control" := ["max-age=0"; "no-store"]]}) = true).
Proof.
  intros p get. repeat split; try by vm_compute.
  exists "no-store". split; [| by vm_compute].
  change (textproto.CanonicalMIMEHeaderKey "Cache-Control") with "Cache-Control".
  unfold Header.values. rewrite lookup_singleton_eq. simpl.
  apply list_elem_of_In. simpl. auto.
Qed.

(** C7, where the handler departs from it: a 200 that carries a
    [Set-Cookie] header whose first value is empty, followed by a cookie,
    is found cacheable, and so is one whose [no-store] comes in a second
    [Cache-Control] line: only the first value of either header is
    read. *)
Theorem isResponseCacheable_reads_first_value_only (p : ProxyHandler) :
  (Header.present "Set-Cookie" {["Set-Cookie" := [""; "sid=1"]]}
   ∧ isResponseCacheable p
       (Scenario.ok {["Set-Cookie" := [""; "sid=1"]]} "<p>a</p>") = true)
  ∧ (Header.mentions "Cache-Control" "no-store"
       {["Cache-Control" := ["public"; "no-store"]]}
     ∧ isResponseCacheable p
         (Scenario.ok {["Cache-Control" := ["public"; "no-store"]]} "<p>a</p>")
       = true).
Proof.
  repeat split; try by vm_compute.
  exists "no-store". split; [| by vm_compute].
  change (textproto.CanonicalMIMEHeaderKey "Cache-Control") with "Cache-Control".
  unfold Header.values. rewrite lookup_singleton_eq. simpl.
  apply list_elem_of_In. simpl. auto.
Qed.

(** A check of [Header.canonicalKeys] that runs. *)
Lemma canonicalKeys_check (h : HeaderMap) :
  forallb (λ kv, String.eqb (textproto.CanonicalMIMEHeaderKey kv.1) kv.1)
          (map_to_list h) = true →
  Header.canonicalKeys h.
Proof.
  intros Hall key [vs Hkey]. rewrite forallb_forall in Hall.
  apply elem_of_map_to_list, list_elem_of_In, Hall in Hkey.
  by apply String.eqb_eq in Hkey.
Qed.

(** ** The theorems at work *)

Section Runs.

#[local] Existing Instance goErrors.

Import Scenario.

(** A target without a scheme is refused with 400 although the
    allow-list would have refused its host. *)
Lemma invalid_target_is_400_witness :
  isDomainAllowed (NewProxyHandler guarded) (url.Host (Request.URL tunnel)) = false
  ∧ ∃ w' σ',
      ServeHTTP tokenNewRequest 10 (NewProxyHandler guarded) newWriter tunnel
                (newWorld empty origin) = Some (w', σ')
      ∧ status w' = Some StatusBadRequest
      ∧ wTrace σ' = [EvLog "Proxying request: CONNECT //evil.com:443"].
Proof.
  split; [reflexivity |].
  destruct (invalid_target_is_400 tokenNewRequest 10 (NewProxyHandler guarded)
              newWriter tunnel (newWorld empty origin))
    as (w' & σ' & Hrun & Hst & _); [reflexivity | left; reflexivity |].
  exists w', σ'. split; [exact Hrun |]. split; [exact Hst |].
  vm_compute in Hrun. injection Hrun as _ <-. reflexivity.
Defined.

(** Without an allow-list any host passes; with one, a host outside
    it is refused with 403. *)
Lemma isDomainAllowed_allow_list_witness :
  isDomainAllowed p "anything.test" = true
  ∧ (isDomainAllowed (NewProxyHandler guarded) "api.example.com" = true
     ↔ ∃ domain front,
         domain ∈ ["example.com"] ∧ "api.example.com" = front +:+ domain)
  ∧ ∃ w' σ',
      ServeHTTP tokenNewRequest 10 (NewProxyHandler guarded) newWriter
                (request "GET" "evil.com" "/" ∅) (newWorld empty origin)
      = Some (w', σ')
      ∧ status w' = Some StatusForbidden.
Proof.
  split; [| split].
  - destruct (isDomainAllowed_allow_list tokenNewRequest 10 p newWriter getA
                (newWorld empty origin) "anything.test") as (Hall & _).
    apply Hall. reflexivity.
  - destruct (isDomainAllowed_allow_list tokenNewRequest 10
                (NewProxyHandler guarded) newWriter getA
                (newWorld empty origin) "api.example.com")
      as (_ & _ & Hsuffix & _).
    apply Hsuffix. discriminate.
  - destruct (isDomainAllowed_allow_list tokenNewRequest 10
                (NewProxyHandler guarded) newWriter
                (request "GET" "evil.com" "/" ∅)
                (newWorld empty origin) "evil.com")
      as (_ & _ & _ & H403 & _).
    apply H403; [reflexivity | split; discriminate | reflexivity].
Defined.

(** The keys of [GET] and [HEAD] on one URL differ. *)
Lemma createCacheKey_determined_witness :
  createCacheKey p getA = "GET:http://example.com/a"
  ∧ createCacheKey p getA
    ≠ createCacheKey p (request "HEAD" "example.com" "/a" ∅)
  ∧ createCacheKey p getA
    ≠ createCacheKey p (request "GET" "example.com" "/a/" ∅).
Proof.
  split; [reflexivity |]. split.
  - destruct (createCacheKey_determined p p getA
                (request "HEAD" "example.com" "/a" ∅))
      as (_ & _ & Hmethod & _).
    apply Hmethod; [reflexivity | discriminate].
  - destruct (createCacheKey_determined p p getA
                (request "GET" "example.com" "/a/" ∅))
      as (_ & _ & _ & Hurl).
    apply Hurl; [reflexivity | discriminate].
Defined.

(** A method that is not a token cannot be cloned: 500, nothing sent. *)
Lemma clone_failure_is_500_witness :
  ∃ w' σ',
    ServeHTTP tokenNewRequest 10 p newWriter
              (request "GE T" "example.com" "/a" ∅) (newWorld empty origin)
    = Some (w', σ')
    ∧ status w' = Some StatusInternalServerError
    ∧ wNet σ' = origin.
Proof.
  destruct (clone_failure_is_500 tokenNewRequest 10 p newWriter
              (request "GE T" "example.com" "/a" ∅) (newWorld empty origin)
              "net/http: invalid method GE T")
    as (w' & σ' & Hrun & Hst & _ & Hnet & _);
    [reflexivity | split; discriminate | reflexivity | reflexivity
    | reflexivity |].
  exists w', σ'. split; [exact Hrun |]. split; [exact Hst | exact Hnet].
Defined.

(** An origin that redirects for ever: the call is stopped and the
    client gets 502; an origin that is down: 502 as well. *)
Lemma forward_failure_is_502_witness :
  (∃ w' σ',
     ServeHTTP tokenNewRequest 10 p newWriter getA (newWorld empty looping)
     = Some (w', σ')
     ∧ status w' = Some StatusBadGateway
     ∧ length (filter (λ e, isRoundTrip e = true) (wTrace σ')) = 10%nat)
  ∧ (∃ w' σ',
       ServeHTTP tokenNewRequest 10 p newWriter getA (newWorld empty down)
       = Some (w', σ')
       ∧ status w' = Some StatusBadGateway).
Proof.
  split.
  - destruct (forward_failure_is_502 tokenNewRequest cfg 10 newWriter getA
                (newWorld empty looping) cloned)
      as (_ & _ & _ & Hchain & H502).
    destruct (Hchain ltac:(lia) eq_refl) as (err & σ' & Hdo).
    destruct (H502 eq_refl ltac:(split; discriminate) eq_refl eq_refl eq_refl
                ("Get " +:+ urlerr.quote "/a" +:+ ": stopped after 10 redirects")
                (forwarded looping))
      as (w' & Hrun & Hst); [by vm_compute |].
    eexists w', _. split; [exact Hrun |]. split; [exact Hst |].
    by vm_compute.
  - destruct (forward_failure_is_502 tokenNewRequest cfg 10 newWriter getA
                (newWorld empty down) cloned)
      as (_ & _ & _ & _ & H502).
    destruct (H502 eq_refl ltac:(split; discriminate) eq_refl eq_refl eq_refl
                ("Get " +:+ urlerr.quote "http://example.com/a"
                 +:+ ": dial tcp: connection refused")
                (forwarded down))
      as (w' & Hrun & Hst); [by vm_compute |].
    eexists w', _. split; [exact Hrun | exact Hst].
Defined.

(** [getA] forwarded to an origin that answers 200: the log says what
    would be cached, and the cache is still empty. *)
Lemma cacheable_response_is_only_logged_witness :
  ∃ w' σ',
    ServeHTTP tokenNewRequest 10 p newWriter getA (newWorld empty origin)
    = Some (w', σ')
    ∧ wCache σ' = empty
    ∧ last (wTrace σ')
      = Some (EvLog "Would cache response for GET:http://example.com/a (8 bytes)").
Proof.
  destruct (cacheable_response_is_only_logged tokenNewRequest 10 p newWriter
              getA (newWorld empty origin) cloned page (forwarded origin))
    as (w' & σ' & Hrun & Hcache & _ & tail & Htrace & Htail & _);
    [split; discriminate | reflexivity | reflexivity | reflexivity
    | by vm_compute | reflexivity | reflexivity | reflexivity |].
  exists w', σ'. split; [exact Hrun |]. split; [exact Hcache |].
  rewrite Htrace, (Htail eq_refl). by vm_compute.
Defined.

(** C1 fails as stated: [GET http://example.com/a] through a proxy
    without allow-list and with an empty cache is forwarded, the origin
    answers 200 without [Set-Cookie], request and response are both
    cacheable, and yet the cache is empty afterwards and the same
    request, made again, is not served from the cache: it carries no
    marker and goes to the origin once more. *)
Lemma second_request_reaches_origin_again :
  ∃ w1 σ1 w2 σ2,
    ServeHTTP tokenNewRequest 10 p newWriter getA (newWorld empty origin)
    = Some (w1, σ1)
    ∧ status w1 = Some StatusOK
    ∧ isCacheable p getA = true
    ∧ isResponseCacheable p page = true
    ∧ wCache σ1 = empty
    ∧ ServeHTTP tokenNewRequest 10 p newWriter getA σ1 = Some (w2, σ2)
    ∧ Header.Get "X-Cache" (sentHeader w2) = ""
    ∧ length (filter (λ e, isRoundTrip e = true) (wTrace σ2)) = 2%nat
    ∧ ¬ servedFromCache σ1 σ2 w2.
Proof.
  exists (from_option fst newWriter firstRun), afterFirst,
         (from_option fst newWriter secondRun),
         (from_option snd afterFirst secondRun).
  repeat (split; [by vm_compute |]).
  intros [Hmark _]. by vm_compute in Hmark.
Qed.

(** On a hit the stored bytes come back as the body, under status 200,
    the marker and the content type that the server detects in them. *)
Lemma cache_hit_is_served_raw_witness :
  ∃ w' σ',
    ServeHTTP tokenNewRequest 10 p newWriter getA
              (newWorld (stored "<p>kept</p>") down) = Some (w', σ')
    ∧ status w' = Some StatusOK
    ∧ wireHeader w' = {["X-Cache" := ["HIT"];
                        "Content-Type" := ["text/html; charset=utf-8"]]}
    ∧ wBody w' = "<p>kept</p>"
    ∧ servedFromCache (newWorld (stored "<p>kept</p>") down) σ' w'.
Proof.
  destruct (cache_hit_is_served_raw tokenNewRequest 10 p newWriter getA
              (newWorld (stored "<p>kept</p>") down)
              {| cache.Value := "<p>kept</p>" |} (stored "<p>kept</p>"))
    as (w' & σ' & Hrun & Hserved & Hst & Hhdr & _ & _ & Hbody & _);
    [reflexivity | reflexivity | split; discriminate | reflexivity
    | reflexivity | reflexivity |].
  exists w', σ'. split; [exact Hrun |]. split; [exact Hst |].
  split; [rewrite Hhdr; [by vm_compute | reflexivity | discriminate
                        | by vm_compute] |].
  split; [exact (Hbody eq_refl) | exact Hserved].
Defined.

(** C2 fails as stated: whatever the format in which responses are
    stored, as long as a stored response can be read back, the reply on
    a hit is not the stored entry deserialized into headers and body: a
    stored [Etag] never reaches the client. *)
Lemma cache_hit_does_not_deserialize :
  ¬ ∃ (serialize : HeaderMap → string → string)
      (deserialize : string → HeaderMap * string),
      (∀ header body, deserialize (serialize header body) = (header, body))
      ∧ ∀ entry w' σ',
          ServeHTTP tokenNewRequest 10 p newWriter getA
                    (newWorld (stored entry) down) = Some (w', σ') →
          servedAsStored deserialize entry w'.
Proof.
  intros (serialize & deserialize & Hback & Hserved).
  set (entry := serialize {["Etag" := ["v1"]]} "<p>a</p>").
  assert (cache.Get (wCache (newWorld (stored entry) down))
                    (createCacheKey p getA)
          = (Some {| cache.Value := entry |}, stored entry)) as Hget.
  { change (createCacheKey p getA) with "GET:http://example.com/a".
    unfold cache.Get, mapCache, stored. simpl.
    by rewrite lookup_singleton_eq. }
  destruct (hit_headers_on_the_wire tokenNewRequest 10 p newWriter getA
              (newWorld (stored entry) down) {| cache.Value := entry |}
              (stored entry))
    as (w' & σ' & Hrun & Hkeys);
    [reflexivity | reflexivity | split; discriminate | reflexivity
    | reflexivity | exact Hget |].
  destruct (Hserved entry w' σ' Hrun) as [Hhdr _].
  specialize (Hhdr "Etag" ["v1"]).
  unfold entry in Hhdr at 1. rewrite Hback in Hhdr.
  specialize (Hhdr eq_refl ltac:(discriminate)).
  rewrite Hkeys in Hhdr by discriminate.
  by vm_compute in Hhdr.
Qed.


End Runs.

(** * Further properties *)

(** ** The cache key, the timeout and the allow-list *)

Lemma token_head (c : ascii) (m : string) :
  textproto.allValid (String c m) = true →
  c ≠ ":"%char ∧ textproto.allValid m = true.
Proof.
  cbn [textproto.allValid]. intros [Hc Hm]%andb_true_iff. split; [| done].
  intros ->. by vm_compute in Hc.
Qed.

Lemma colon_splits (m1 m2 u1 u2 : string) :
  textproto.allValid m1 = true → textproto.allValid m2 = true →
  m1 +:+ ":" +:+ u1 = m2 +:+ ":" +:+ u2 →
  m1 = m2 ∧ u1 = u2.
Proof.
  revert m2. induction m1 as [|c m1 IH]; intros [|d m2] H1 H2 Heq;
    rewrite ?append_cons, ?append_empty_l in Heq.
  - by injection Heq as ->.
  - apply token_head in H2 as [Hd _]. by injection Heq as <-.
  - apply token_head in H1 as [Hc _]. by injection Heq as ->.
  - apply token_head in H1 as [_ H1]. apply token_head in H2 as [_ H2].
    injection Heq as -> Heq. destruct (IH m2 H1 H2 Heq) as [-> ->]. done.
Qed.

(** X1: for requests whose methods are HTTP tokens, as the methods of
    all requests that net/http accepts are, the cache key determines the
    method and the text of the URL: two requests with one key have the
    same method and the same URL text. *)
Theorem createCacheKey_injective_on_tokens (p p' : ProxyHandler)
    (r r' : Request.t) :
  textproto.allValid (Request.Method r) = true →
  textproto.allValid (Request.Method r') = true →
  createCacheKey p r = createCacheKey p' r' →
  Request.Method r = Request.Method r'
  ∧ url.String (Request.URL r) = url.String (Request.URL r').
Proof.
  intros Hm Hm'. rewrite !createCacheKey_eq. by apply colon_splits.
Qed.

Lemma wrap64_range (z : Z) : - 2 ^ 63 ≤ time.wrap64 z < 2 ^ 63.
Proof.
  unfold time.wrap64.
  pose proof (Z.mod_pos_bound (z + 2 ^ 63) (2 ^ 64) ltac:(lia)). lia.
Qed.

Lemma wrap64_small (z : Z) : - 2 ^ 63 ≤ z < 2 ^ 63 → time.wrap64 z = z.
Proof. intros Hz. unfold time.wrap64. rewrite Z.mod_small; lia. Qed.

(** X2: the timeout of the client is the configured number of seconds,
    in nanoseconds, exactly when that number is between -9223372036 and
    9223372036; a 64-bit number of seconds outside this range wraps
    around to some other duration. *)
Theorem Timeout_is_seconds_in_range (cfg : Config) :
  - 2 ^ 63 ≤ ProxyTimeout cfg < 2 ^ 63 →
  Timeout (client (NewProxyHandler cfg)) = ProxyTimeout cfg * 1000000000
  ↔ -9223372036 ≤ ProxyTimeout cfg ≤ 9223372036.
Proof.
  intros Hint. cbn [NewProxyHandler client Timeout].
  unfold time.seconds, time.Second. rewrite (wrap64_small (ProxyTimeout cfg)) by done.
  split.
  - intros Heq. pose proof (wrap64_range (ProxyTimeout cfg * 1000000000)) as Hr.
    rewrite Heq in Hr. lia.
  - intros Hr. apply wrap64_small. lia.
Qed.

(** X3: a host that is itself an entry of the allow-list is allowed, and
    an allow-list with a blank entry allows every host. *)
Theorem isDomainAllowed_entries (p : ProxyHandler) (host : string) :
  (host ∈ AllowedDomains (config p) → isDomainAllowed p host = true)
  ∧ ("" ∈ AllowedDomains (config p) → isDomainAllowed p host = true).
Proof.
  assert (∀ domain front, domain ∈ AllowedDomains (config p) →
            host = front +:+ domain → isDomainAllowed p host = true) as Hin.
  { intros domain front Hd ->. unfold isDomainAllowed.
    destruct (length (AllowedDomains (config p)) =? 0)%nat; [done |].
    apply existsb_exists. exists domain. split; [by apply list_elem_of_In |].
    apply HasSuffix_spec. by exists front. }
  split; intros Hd.
  - by apply (Hin host "").
  - apply (Hin "" host); [done | by rewrite append_empty_r].
Qed.

(** ** The whole run *)

Section WholeRun.

Context {C N : Type} `{!cache.Cache C} `{!Network N} `{!ClientErrors}.
Variable NewRequest : string → string → Body → error + Request.t.

Implicit Types (p : ProxyHandler) (w : ResponseWriter) (r req : Request.t)
               (σ : World C N) (n : N) (fuel : nat) (c : Client)
               (reqs sent : list Request.t).

Lemma newEvents_app σ σ' (evs : list Event) :
  wTrace σ' = wTrace σ ++ evs → newEvents σ σ' = evs.
Proof. intros Ht. unfold newEvents. by rewrite Ht, drop_app_length. Qed.

Lemma forallb_map_EvRoundTrip (f : Event → bool) sent :
  (∀ req, f (EvRoundTrip req) = true) →
  forallb f (map EvRoundTrip sent) = true.
Proof. intros Hf. induction sent; simpl; [done | by rewrite Hf]. Qed.

Lemma forallb_map_EvLog_isCacheGet (logs : list string) :
  forallb (λ e, negb (isCacheGet e)) (map EvLog logs) = true.
Proof. by induction logs. Qed.

Lemma forallb_map_EvLog_isRoundTrip (logs : list string) :
  forallb (λ e, negb (isRoundTrip e)) (map EvLog logs) = true.
Proof. by induction logs. Qed.

Lemma filter_isRoundTrip_sent sent (logs : list string) :
  length (filter (λ e, isRoundTrip e = true)
                 (map EvRoundTrip sent ++ map EvLog logs)) = length sent.
Proof.
  rewrite filter_app, length_app.
  assert (filter (λ e, isRoundTrip e = true) (map EvLog logs) = []) as ->.
  { induction logs as [|l logs IH]; [done |]. by rewrite map_cons, filter_cons_False. }
  simpl. rewrite Nat.add_0_r.
  induction sent as [|q sent IH]; [done |].
  rewrite map_cons, filter_cons_True by done. simpl. by rewrite IH.
Qed.

(** More fuel does not change a call that has ended. *)
Lemma Do_fuel_mono c fuel fuel' reqs req n x :
  (fuel ≤ fuel')%nat →
  Do fuel c reqs req n = Some x → Do fuel' c reqs req n = Some x.
Proof.
  revert fuel' reqs req n.
  induction fuel as [|fuel IH]; intros [|fuel'] reqs req n Hle; try done; [lia |].
  cbn [Do]. destruct (roundTrip n req) as [[err|resp|resp next] n1]; [done.. |].
  destruct (CheckRedirect c next (reqs ++ [req])); [done |].
  apply IH. lia.
Qed.

Lemma clientDo_fuel cfg fuel proxyReq σ :
  (10 ≤ fuel)%nat →
  clientDo fuel (NewProxyHandler cfg) proxyReq σ
  = clientDo 10 (NewProxyHandler cfg) proxyReq σ
  ∧ is_Some (clientDo 10 (NewProxyHandler cfg) proxyReq σ).
Proof.
  intros Hfuel. unfold clientDo.
  assert (∀ next via,
            CheckRedirect (client (NewProxyHandler cfg)) next via = None →
            (length via < 10)%nat) as Hpol
    by (intros ? ?; apply CheckRedirect_NewProxyHandler).
  destruct (Do_ends (client (NewProxyHandler cfg)) 10 [] proxyReq (wNet σ) Hpol)
    as [[[res n'] sent] Hdo]; [lia | simpl; lia |].
  rewrite (Do_fuel_mono _ 10 fuel _ _ _ _ Hfuel Hdo), Hdo. by split.
Qed.

(** What the forwarding stage leaves in the world: the cache as it was,
    the requests of one call of [Do] at most, then log lines, none of
    them about caching unless the request is cacheable. *)
Lemma serveFromOrigin_frame fuel p w r σ w' σ' :
  serveFromOrigin NewRequest fuel p w r σ = Some (w', σ') →
  wCache σ' = wCache σ
  ∧ ∃ sent logs,
      wTrace σ' = wTrace σ ++ map EvRoundTrip sent ++ map EvLog logs
      ∧ (sent = []
         ∨ ∃ proxyReq res n',
             Do fuel (client p) [] proxyReq (wNet σ) = Some (res, n', sent))
      ∧ (isCacheable p r = false →
         forallb (λ e, negb (isWouldCache e)) (map EvLog logs) = true).
Proof.
  unfold serveFromOrigin.
  destruct (cloneRequest NewRequest p r) as [err|proxyReq].
  { intros [= <- <-]. split; [done |]. exists [], []. simpl.
    by rewrite app_nil_r; auto. }
  unfold clientDo.
  destruct (Do fuel (client p) [] proxyReq (wNet σ)) as [[[res n'] sent]|] eqn:Hdo;
    [| done].
  assert (sent = [] ∨ ∃ proxyReq res n',
            Do fuel (client p) [] proxyReq (wNet σ) = Some (res, n', sent)) as Hsent
    by (right; eauto).
  destruct res as [err|resp].
  { intros [= <- <-]. split; [done |]. exists sent, []. simpl.
    by rewrite app_nil_r. }
  unfold io.ReadAll.
  destruct (readErr (Response.Body resp)) as [err|].
  { intros [= <- <-]. split; [done |].
    exists sent, [fmt.Sprintf "Error reading response body: %v" [fmt.ArgV err]].
    split; [cbn; by rewrite <- app_assoc |]. split; [exact Hsent |]. intros Hc; first [discriminate Hc | reflexivity]. }
  set (would := fmt.Sprintf "Would cache response for %s (%d bytes)"
                  [fmt.ArgS (createCacheKey p r);
                   fmt.ArgD (Z.of_nat (String.length (bytes (Response.Body resp))))]).
  destruct (Write _ _) as [w2 [err|]]; intros [= <- <-];
    destruct (isCacheable p r); cbn [andb];
    try destruct (isResponseCacheable p resp);
    (split; [done |]); unfold cacheResponse, log.Printf; cbn [wTrace];
    fold would; rewrite <- ?app_assoc.
  all:
    first
      [ exists sent, [would; fmt.Sprintf "Error writing response body: %v"
                               [fmt.ArgV err]];
        split; [reflexivity |]
      | exists sent, [fmt.Sprintf "Error writing response body: %v"
                        [fmt.ArgV err]];
        split; [reflexivity |]
      | exists sent, [would]; split; [reflexivity |]
      | exists sent, []; split; [simpl; by rewrite app_nil_r |] ];
    (split; [exact Hsent |]);
    intros Hc; first [discriminate Hc | reflexivity].
Qed.

Lemma serveFromOrigin_fuel cfg fuel w r σ :
  (10 ≤ fuel)%nat →
  serveFromOrigin NewRequest fuel (NewProxyHandler cfg) w r σ
  = serveFromOrigin NewRequest 10 (NewProxyHandler cfg) w r σ
  ∧ is_Some (serveFromOrigin NewRequest 10 (NewProxyHandler cfg) w r σ).
Proof.
  intros Hfuel. unfold serveFromOrigin.
  destruct (cloneRequest NewRequest (NewProxyHandler cfg) r) as [err|proxyReq];
    [by split |].
  destruct (clientDo_fuel cfg fuel proxyReq σ Hfuel) as [-> [[res σ1] ->]].
  split; [done |]. destruct res as [err|resp]; [done |].
  destruct (io.ReadAll (Response.Body resp)) as [body [err|]]; [done |].
  by destruct (Write body _) as [w2 [err|]].
Qed.

(** What a run leaves in the world: its events are the lines and the
    lookup of the stages before forwarding, then the requests of one call
    of [Do] at most, then log lines. *)
Lemma ServeHTTP_frame fuel p w r σ w' σ' :
  ServeHTTP NewRequest fuel p w r σ = Some (w', σ') →
  ∃ pre sent logs,
    wTrace σ' = wTrace σ ++ pre ++ map EvRoundTrip sent ++ map EvLog logs
    ∧ forallb (λ e, negb (isRoundTrip e)) pre = true
    ∧ (sent = []
       ∨ ∃ proxyReq res n',
           Do fuel (client p) [] proxyReq (wNet σ) = Some (res, n', sent))
    ∧ (isCacheable p r = false →
       wCache σ' = wCache σ
       ∧ forallb (λ e, negb (isCacheGet e)) pre = true
       ∧ forallb (λ e, negb (isWouldCache e)) pre = true
       ∧ forallb (λ e, negb (isWouldCache e)) (map EvLog logs) = true).
Proof.
  unfold ServeHTTP.
  set (line := fmt.Sprintf "Proxying request: %s %s"
                 [fmt.ArgS (Request.Method r);
                  fmt.ArgS (url.String (Request.URL r))]).
  destruct (_ || _).
  { intros [= <- <-]. exists [EvLog line], [], []. cbn.
    rewrite ?app_nil_r. split_and!; [done | done | by left | done]. }
  destruct (negb _).
  { intros [= <- <-]. exists [EvLog line], [], []. cbn.
    rewrite ?app_nil_r. split_and!; [done | done | by left | done]. }
  destruct (isCacheable p r) eqn:Hc.
  - unfold cacheGet. cbn [wCache wTrace wNet log.Printf].
    destruct (cache.Get (wCache σ) (createCacheKey p r)) as [[item|] c'].
    + intros [= <- <-].
      exists [EvLog line; EvCacheGet (createCacheKey p r);
              EvLog (fmt.Sprintf "Cache hit for %s" [fmt.ArgS (createCacheKey p r)])],
             [], [].
      cbn. rewrite <- !app_assoc. split_and!; [done | done | by left | done].
    + intros (Hcache & sent & logs & Ht & Hsent & _)%serveFromOrigin_frame.
      exists [EvLog line; EvCacheGet (createCacheKey p r);
              EvLog (fmt.Sprintf "Cache miss for %s" [fmt.ArgS (createCacheKey p r)])],
             sent, logs.
      cbn in Ht, Hsent. rewrite Ht, <- !app_assoc.
      split_and!; [done | done | done | done].
  - intros (Hcache & sent & logs & Ht & Hsent & Hlogs)%serveFromOrigin_frame.
    exists [EvLog line], sent, logs.
    cbn in Ht, Hsent, Hcache. rewrite Ht, <- !app_assoc.
    split_and!; [done | done | done |]. intros _. split_and!; auto.
Qed.

Lemma filter_isRoundTrip_frame (pre : list Event) sent (logs : list string) :
  forallb (λ e, negb (isRoundTrip e)) pre = true →
  length (filter (λ e, isRoundTrip e = true)
                 (pre ++ map EvRoundTrip sent ++ map EvLog logs)) = length sent.
Proof.
  intros Hpre. rewrite filter_app, length_app, filter_isRoundTrip_sent.
  assert (filter (λ e, isRoundTrip e = true) pre = []) as ->; [| done].
  induction pre as [|e pre IH]; [done |].
  cbn [forallb] in Hpre. apply andb_true_iff in Hpre as [He Hpre].
  rewrite filter_cons_False; [by apply IH |].
  destruct (isRoundTrip e); [done | congruence].
Qed.

(** X4: the handler built by [NewProxyHandler] always answers: its run
    ends, whatever the request, the cache and the network, within ten
    rounds of the redirect loop; more rounds allowed change nothing; and
    it sends at most ten requests on the network. *)
Theorem ServeHTTP_always_answers cfg fuel w r σ :
  (10 ≤ fuel)%nat →
  ∃ w' σ',
    ServeHTTP NewRequest fuel (NewProxyHandler cfg) w r σ = Some (w', σ')
    ∧ ServeHTTP NewRequest 10 (NewProxyHandler cfg) w r σ = Some (w', σ')
    ∧ (length (filter (λ e, isRoundTrip e = true) (newEvents σ σ')) ≤ 10)%nat.
Proof.
  intros Hfuel.
  assert (ServeHTTP NewRequest fuel (NewProxyHandler cfg) w r σ
          = ServeHTTP NewRequest 10 (NewProxyHandler cfg) w r σ
          ∧ is_Some (ServeHTTP NewRequest 10 (NewProxyHandler cfg) w r σ))
    as [Heq [[w' σ'] Hrun]].
  { unfold ServeHTTP. destruct (_ || _); [by split |].
    destruct (negb _); [by split |].
    destruct (isCacheable (NewProxyHandler cfg) r).
    - destruct (cacheGet _ _) as [[item|] σ1]; [by split |].
      by apply serveFromOrigin_fuel.
    - by apply serveFromOrigin_fuel. }
  exists w', σ'. rewrite Heq. split; [done |]. split; [done |].
  apply ServeHTTP_frame in Hrun as (pre & sent & logs & Ht & Hpre & Hsent & _).
  rewrite (newEvents_app _ _ _ Ht), filter_isRoundTrip_frame by done.
  destruct Hsent as [-> | (proxyReq & res & n' & Hdo)]; [simpl; lia |].
  eapply Do_sent; [| | exact Hdo]; [| simpl; lia].
  intros ? ?. apply CheckRedirect_NewProxyHandler.
Qed.

(** X5: a request that is not cacheable never touches the cache: the
    cache is not looked up and is left as it was, and no line about
    caching its response is logged, however the run ends. *)
Theorem uncacheable_request_bypasses_cache fuel p w r σ w' σ' :
  isCacheable p r = false →
  ServeHTTP NewRequest fuel p w r σ = Some (w', σ') →
  wCache σ' = wCache σ
  ∧ forallb (λ e, negb (isCacheGet e)) (newEvents σ σ') = true
  ∧ forallb (λ e, negb (isWouldCache e)) (newEvents σ σ') = true.
Proof.
  intros Hc (pre & sent & logs & Ht & _ & _ & Hun)%ServeHTTP_frame.
  destruct (Hun Hc) as (Hcache & Hget & Hwould & Hlogs).
  rewrite (newEvents_app _ _ _ Ht), !forallb_app, Hget, Hwould, Hlogs.
  rewrite !forallb_map_EvRoundTrip by done.
  by rewrite forallb_map_EvLog_isCacheGet.
Qed.

End WholeRun.

(** ** Answers *)

Section Answers.

Context {C N : Type} `{!cache.Cache C} `{!Network N} `{!ClientErrors}.
Variable NewRequest : string → string → Body → error + Request.t.

Implicit Types (p : ProxyHandler) (w : ResponseWriter) (r : Request.t)
               (σ : World C N) (fuel : nat).

(** X6: every answer of the handler carries a status, and the status
    tells the stage that answered: 400 for a target that is not in proxy
    form, 403 for a host that is not allowed, 200 for a hit, 500 when the
    request cannot be cloned, 502 when the call fails, and otherwise the
    status of the answer of the origin. *)
Theorem ServeHTTP_status_table fuel p w r σ w' σ' :
  wSent w = None →
  ServeHTTP NewRequest fuel p w r σ = Some (w', σ') →
  (¬ validTarget r ∧ status w' = Some StatusBadRequest)
  ∨ (validTarget r
     ∧ isDomainAllowed p (url.Host (Request.URL r)) = false
     ∧ status w' = Some StatusForbidden)
  ∨ (validTarget r
     ∧ isDomainAllowed p (url.Host (Request.URL r)) = true
     ∧ is_Some (cacheAnswer p r σ)
     ∧ status w' = Some StatusOK)
  ∨ (validTarget r
     ∧ isDomainAllowed p (url.Host (Request.URL r)) = true
     ∧ cacheAnswer p r σ = None
     ∧ ((∃ err, cloneRequest NewRequest p r = inl err
                ∧ status w' = Some StatusInternalServerError)
        ∨ (∃ proxyReq err,
             cloneRequest NewRequest p r = inr proxyReq
             ∧ clientDo fuel p proxyReq (afterLookup p r σ) = Some (inl err, σ')
             ∧ status w' = Some StatusBadGateway)
        ∨ (∃ proxyReq resp σ1,
             cloneRequest NewRequest p r = inr proxyReq
             ∧ clientDo fuel p proxyReq (afterLookup p r σ) = Some (inr resp, σ1)
             ∧ status w' = Some (Response.StatusCode resp)))).
Proof.
  intros Hw Hrun.
  destruct (decide (url.Scheme (Request.URL r) = ""
                    ∨ url.Host (Request.URL r) = "")) as [Hbad|Hok].
  { rewrite ServeHTTP_invalid in Hrun by done. injection Hrun as <- <-.
    left. split; [unfold validTarget; tauto | by apply status_Error]. }
  assert (validTarget r) as Hv by (unfold validTarget; tauto).
  right.
  destruct (isDomainAllowed p (url.Host (Request.URL r))) eqn:Hd; cycle 1.
  { rewrite ServeHTTP_forbidden in Hrun by done. injection Hrun as <- <-.
    left. split; [done |]. split; [done | by apply status_Error]. }
  right.
  destruct (cacheAnswer p r σ) as [item|] eqn:Hans.
  { left. split; [done |]. split; [done |]. split; [by eexists |].
    unfold cacheAnswer in Hans. destruct (isCacheable p r) eqn:Hc; [| done].
    destruct (cache.Get (wCache σ) (createCacheKey p r)) as [found c'] eqn:Hget.
    simpl in Hans. subst found.
    rewrite (ServeHTTP_hit _ _ _ _ _ _ _ _ Hv Hd Hc Hget) in Hrun.
    injection Hrun as <- <-.
    unfold writeCachedBody, writeCachedHeaders, status.
    rewrite wSent_Write. unfold WriteHeader, onHeader. simpl. by rewrite Hw. }
  right. split; [done |]. split; [done |]. split; [done |].
  rewrite ServeHTTP_origin in Hrun by done.
  apply serveFromOrigin_cases in Hrun
    as [(err & Hcl & Hst & _) | [(proxyReq & err & Hcl & Hdo & Hst)
                               | (proxyReq & resp & σ1 & Hcl & Hdo & Hst & _)]];
    [| | | done].
  - left. by exists err.
  - right; left. by exists proxyReq, err.
  - right; right. by exists proxyReq, resp, σ1.
Qed.

(** The writer after the headers of [resp] have been copied, the proxy
    header set and the status written. *)
Lemma relayed_head w (resp : Response.t) :
  wSent w = None →
  wSent (WriteHeader (Response.StatusCode resp)
           (onHeader (Header.Set_ "X-Proxy-Server" "Go-Proxy-Server/1.0")
              (onHeader (Header.copyInto (Response.Header resp)) w)))
  = Some (Response.StatusCode resp,
          Header.Set_ "X-Proxy-Server" "Go-Proxy-Server/1.0"
            (Header.copyInto (Response.Header resp) (wHeader w))).
Proof. intros Hw. unfold WriteHeader, onHeader. simpl. by rewrite Hw. Qed.

(** X7: when the call succeeds and the body is read and written, the
    client gets the status of the origin, the body of the origin after
    what the writer held, and the headers of the writer with those of
    the origin added; [X-Proxy-Server] is set to the name of this proxy
    whatever the origin sent under that name, and when the keys of the
    origin's headers are canonical every other header has the values of
    the writer followed by those of the origin, in order. *)
Theorem forward_success_relays_origin fuel p w r σ proxyReq resp σ1 :
  wSent w = None → wFail w = None →
  validTarget r →
  isDomainAllowed p (url.Host (Request.URL r)) = true →
  cacheAnswer p r σ = None →
  cloneRequest NewRequest p r = inr proxyReq →
  clientDo fuel p proxyReq (afterLookup p r σ) = Some (inr resp, σ1) →
  readErr (Response.Body resp) = None →
  ∃ w' σ',
    ServeHTTP NewRequest fuel p w r σ = Some (w', σ')
    ∧ status w' = Some (Response.StatusCode resp)
    ∧ wBody w' = wBody w +:+ bytes (Response.Body resp)
    ∧ Header.values "X-Proxy-Server" (sentHeader w') = ["Go-Proxy-Server/1.0"]
    ∧ (Header.canonicalKeys (Response.Header resp) →
       ∀ key, key ≠ "X-Proxy-Server" →
         Header.values key (sentHeader w')
         = Header.values key (wHeader w)
           ++ Header.values key (Response.Header resp)).
Proof.
  intros Hw Hf Hv Hd Hmiss Hclone Hdo Hread.
  rewrite ServeHTTP_origin by done.
  unfold serveFromOrigin. rewrite Hclone, Hdo. unfold io.ReadAll. rewrite Hread.
  pose proof (relayed_head w resp Hw) as Hhead.
  set (w1 := WriteHeader _ _) in *.
  assert (wFail w1 = None) as Hf1
    by (unfold w1, WriteHeader, onHeader; simpl; by rewrite Hw).
  unfold Write, WriteHeader. rewrite Hhead, Hf1.
  eexists _, _. split; [done |].
  unfold status, sentHeader. cbn [wSent wBody]. rewrite Hhead. cbn.
  split; [done |]. split.
  { unfold w1, WriteHeader, onHeader. simpl. by rewrite Hw. }
  split.
  - rewrite values_Set. by case_decide.
  - intros Hcan key Hkey. rewrite values_Set.
    change (textproto.CanonicalMIMEHeaderKey "X-Proxy-Server")
      with "X-Proxy-Server".
    case_decide; [done |]. by apply values_copyInto.
Qed.

(** X8: when reading the body of the origin's answer fails, the client
    has already been sent the status of the origin; no byte of the body
    is written, not even those read before the failure; the failure is
    logged, and nothing is logged about caching, whether or not request
    and response are cacheable. *)
Theorem body_read_failure_truncates fuel p w r σ proxyReq resp σ1 err :
  wSent w = None →
  validTarget r →
  isDomainAllowed p (url.Host (Request.URL r)) = true →
  cacheAnswer p r σ = None →
  cloneRequest NewRequest p r = inr proxyReq →
  clientDo fuel p proxyReq (afterLookup p r σ) = Some (inr resp, σ1) →
  readErr (Response.Body resp) = Some err →
  ∃ w' σ',
    ServeHTTP NewRequest fuel p w r σ = Some (w', σ')
    ∧ status w' = Some (Response.StatusCode resp)
    ∧ wBody w' = wBody w
    ∧ wCache σ' = wCache σ1 ∧ wNet σ' = wNet σ1
    ∧ wTrace σ' = wTrace σ1 ++ [EvLog ("Error reading response body: " +:+ err)].
Proof.
  intros Hw Hv Hd Hmiss Hclone Hdo Hread.
  rewrite ServeHTTP_origin by done.
  unfold serveFromOrigin. rewrite Hclone, Hdo. unfold io.ReadAll. rewrite Hread.
  eexists _, _. split; [done |].
  unfold status. rewrite relayed_head by done.
  split; [done |]. split.
  { unfold WriteHeader, onHeader. simpl. by rewrite Hw. }
  split; [done |]. split; [done |].
  cbn. unfold fmt.showArg. by rewrite append_empty_r.
Qed.

(** X9: when the client has gone away, the answer of the origin is
    still fetched; nothing is added to the body, and the last thing the
    run records is the log line of the failed write. *)
Theorem body_write_failure_is_logged fuel p w r σ proxyReq resp σ1 err :
  wSent w = None → wFail w = Some err →
  validTarget r →
  isDomainAllowed p (url.Host (Request.URL r)) = true →
  cacheAnswer p r σ = None →
  cloneRequest NewRequest p r = inr proxyReq →
  clientDo fuel p proxyReq (afterLookup p r σ) = Some (inr resp, σ1) →
  readErr (Response.Body resp) = None →
  ∃ w' σ',
    ServeHTTP NewRequest fuel p w r σ = Some (w', σ')
    ∧ status w' = Some (Response.StatusCode resp)
    ∧ wBody w' = wBody w
    ∧ wNet σ' = wNet σ1
    ∧ last (wTrace σ')
      = Some (EvLog ("Error writing response body: " +:+ err)).
Proof.
  intros Hw Hf Hv Hd Hmiss Hclone Hdo Hread.
  rewrite ServeHTTP_origin by done.
  unfold serveFromOrigin. rewrite Hclone, Hdo. unfold io.ReadAll. rewrite Hread.
  pose proof (relayed_head w resp Hw) as Hhead.
  set (w1 := WriteHeader _ _) in *.
  assert (wFail w1 = Some err) as Hf1
    by (unfold w1, WriteHeader, onHeader; simpl; by rewrite Hw).
  assert (wBody w1 = wBody w) as Hb1
    by (unfold w1, WriteHeader, onHeader; simpl; by rewrite Hw).
  unfold Write, WriteHeader. rewrite Hhead, Hf1.
  eexists _, _. split; [done |].
  unfold status. rewrite Hhead. split; [done |]. split; [done |].
  split; [by destruct (isCacheable p r && isResponseCacheable p resp) |].
  unfold log.Printf. cbn [wTrace]. rewrite last_snoc.
  cbn. unfold fmt.showArg. by rewrite append_empty_r.
Qed.

(** X10: when the request or the response is not cacheable, a
    successful forward leaves no trace of its own: the world after the
    run is the world after the call, so [cacheResponse] was not
    called. *)
Theorem uncacheable_response_is_not_logged fuel p w r σ proxyReq resp σ1 :
  wSent w = None → wFail w = None →
  validTarget r →
  isDomainAllowed p (url.Host (Request.URL r)) = true →
  cacheAnswer p r σ = None →
  cloneRequest NewRequest p r = inr proxyReq →
  clientDo fuel p proxyReq (afterLookup p r σ) = Some (inr resp, σ1) →
  readErr (Response.Body resp) = None →
  isCacheable p r && isResponseCacheable p resp = false →
  ∃ w', ServeHTTP NewRequest fuel p w r σ = Some (w', σ1).
Proof.
  intros Hw Hf Hv Hd Hmiss Hclone Hdo Hread Hnot.
  rewrite ServeHTTP_origin by done.
  unfold serveFromOrigin. rewrite Hclone, Hdo. unfold io.ReadAll.
  rewrite Hread, Hnot.
  set (w1 := WriteHeader _ _).
  assert (wFail (WriteHeader StatusOK w1) = None) as Hf1
    by (unfold w1, WriteHeader, onHeader; simpl; by rewrite Hw).
  unfold Write. rewrite Hf1. by eexists.
Qed.

End Answers.

(** ** Redirects *)

Section Redirects.

Context {N : Type} `{!Network N} `{!ClientErrors}.

Implicit Types (n : N) (req : Request.t) (reqs : list Request.t)
               (fuel k : nat).

Lemma Do_follows cfg fuel k reqs req n resp :
  chainFinal k n req = Some resp →
  (length reqs + k < 10)%nat → (k < fuel)%nat →
  ∃ n' sent,
    Do fuel (client (NewProxyHandler cfg)) reqs req n = Some (inr resp, n', sent)
    ∧ length sent = (length reqs + S k)%nat.
Proof.
  revert fuel reqs req n.
  induction k as [|k IH]; intros [|fuel] reqs req n Hchain Hlen Hfuel;
    try lia; cbn [chainFinal] in Hchain; cbn [Do];
    destruct (roundTrip n req) as [[err|resp'|resp' next] n1]; try done.
  - injection Hchain as ->. eexists _, _. split; [done |].
    rewrite length_app. simpl. lia.
  - assert (CheckRedirect (client (NewProxyHandler cfg)) next (reqs ++ [req])
            = None) as ->.
    { apply CheckRedirect_NewProxyHandler. rewrite length_app. simpl. lia. }
    destruct (IH fuel (reqs ++ [req]) next n1 Hchain) as (n' & sent & Hdo & Hs);
      rewrite ?length_app; simpl; try lia.
    exists n', sent. split; [done |]. rewrite Hs, length_app. simpl. lia.
Qed.

Lemma chainHop_unfold k n req :
  chainHop k n req =
    match roundTrip n req with
    | (RTRedirect resp next, n) =>
        match k with
        | O => Some (resp, next)
        | S k => chainHop k n next
        end
    | _ => None
    end.
Proof. by destruct k. Qed.

Lemma Do_stops cfg fuel k reqs req n resp :
  chainFinal k n req = Some resp →
  (length reqs < 10)%nat → (10 ≤ length reqs + k)%nat →
  (10 ≤ length reqs + fuel)%nat →
  ∃ redirect next n' sent,
    chainHop (9 - length reqs) n req = Some (redirect, next)
    ∧ Do fuel (client (NewProxyHandler cfg)) reqs req n
      = Some (inl (urlError (hd req reqs) next (Some redirect)
                     (fmt.Errorf "stopped after 10 redirects")), n', sent)
    ∧ length sent = 10%nat.
Proof.
  revert fuel reqs req n.
  induction k as [|k IH]; intros [|fuel] reqs req n Hchain Hlen Hk Hfuel;
    try lia; cbn [chainFinal] in Hchain; cbn [Do];
    rewrite chainHop_unfold, hd_snoc;
    destruct (roundTrip n req) as [[err|resp'|resp' next] n1]; try done.
  destruct (CheckRedirect (client (NewProxyHandler cfg)) next (reqs ++ [req]))
    as [err|] eqn:Hchk.
  - assert (¬ (length (reqs ++ [req]) < 10)%nat) as Hfull.
    { intros Hlt%(CheckRedirect_NewProxyHandler cfg next). congruence. }
    rewrite length_app in Hfull. simpl in Hfull.
    cbv [NewProxyHandler client CheckRedirect] in Hchk.
    destruct (10 <=? length (reqs ++ [req]))%nat; [| done].
    injection Hchk as <-. exists resp', next. eexists _, _.
    replace (9 - length reqs)%nat with 0%nat by lia.
    split; [done |]. split; [done |].
    rewrite length_app. simpl. lia.
  - apply CheckRedirect_NewProxyHandler in Hchk.
    rewrite length_app in Hchk. simpl in Hchk.
    destruct (IH fuel (reqs ++ [req]) next n1 Hchain)
      as (redirect & nx & n' & sent & Hhop & Hdo & Hs);
      rewrite ?length_app; simpl; try lia.
    rewrite hd_snoc in Hdo. rewrite length_app in Hhop. simpl in Hhop.
    exists redirect, nx, n', sent.
    replace (9 - length reqs)%nat with (S (9 - (length reqs + 1)))%nat by lia.
    done.
Qed.

(** X11: the client of the handler follows a chain of up to nine
    redirects and returns the final answer, after one request more than
    there were redirects; a chain of ten redirects or more is cut after
    ten requests, whatever the final answer would have been, with the
    error of the policy, [stopped after 10 redirects], wrapped by the
    client in its own error for the first request of the call, the
    tenth redirecting response and the request that would have
    followed it. *)
Theorem redirects_followed_up_to_nine cfg fuel k n req resp :
  chainFinal k n req = Some resp →
  ((k < 10)%nat → (k < fuel)%nat →
   ∃ n' sent,
     Do fuel (client (NewProxyHandler cfg)) [] req n = Some (inr resp, n', sent)
     ∧ length sent = S k)
  ∧ ((10 ≤ k)%nat → (10 ≤ fuel)%nat →
     ∃ redirect next n' sent,
       chainHop 9 n req = Some (redirect, next)
       ∧ Do fuel (client (NewProxyHandler cfg)) [] req n
         = Some (inl (urlError req next (Some redirect)
                        (fmt.Errorf "stopped after 10 redirects")), n', sent)
       ∧ length sent = 10%nat).
Proof.
  intros Hchain. split.
  - intros Hk Hfuel. by apply (Do_follows cfg fuel k [] req n resp).
  - intros Hk Hfuel.
    apply (Do_stops cfg fuel k [] req n resp); simpl; done || lia.
Qed.

End Redirects.

(** ** Cloning, whatever the keys *)

Lemma canonCase_allValid (upper : bool) (s : string) :
  textproto.allValid s = true →
  textproto.allValid (textproto.canonCase upper s) = true.
Proof.
  revert upper. induction s as [|c s IH]; intros upper; [done |].
  cbn [textproto.allValid textproto.canonCase].
  intros [Hc Hs]%andb_true_iff. apply andb_true_iff. split; [| by apply IH].
  clear IH Hs.
  destruct upper, c as [[] [] [] [] [] [] [] []]; vm_compute in Hc |- *;
    done.
Qed.

Lemma canon_step_idem (upper : bool) (c : ascii) :
  let c' :=
    if upper && textproto.isLower c
    then ascii_of_N (N_of_ascii c - textproto.toLower)
    else if negb upper && textproto.isUpper c
         then ascii_of_N (N_of_ascii c + textproto.toLower)
         else c in
  (if upper && textproto.isLower c'
   then ascii_of_N (N_of_ascii c' - textproto.toLower)
   else if negb upper && textproto.isUpper c'
        then ascii_of_N (N_of_ascii c' + textproto.toLower)
        else c') = c'.
Proof. by destruct upper, c as [[] [] [] [] [] [] [] []]; vm_compute. Qed.

Lemma canonCase_idem (upper : bool) (s : string) :
  textproto.canonCase upper (textproto.canonCase upper s)
  = textproto.canonCase upper s.
Proof.
  revert upper. induction s as [|c s IH]; intros upper; [done |].
  cbn [textproto.canonCase]. cbv zeta.
  pose proof (canon_step_idem upper c) as Hstep. cbv zeta in Hstep.
  rewrite Hstep. by rewrite IH.
Qed.

(** A canonical key is its own canonical form. *)
Lemma CanonicalMIMEHeaderKey_idem (key : string) :
  textproto.CanonicalMIMEHeaderKey (textproto.CanonicalMIMEHeaderKey key)
  = textproto.CanonicalMIMEHeaderKey key.
Proof.
  unfold textproto.CanonicalMIMEHeaderKey.
  destruct (textproto.allValid key) eqn:Hv.
  - by rewrite canonCase_allValid, canonCase_idem.
  - by rewrite Hv.
Qed.

Section CloningAnyKeys.

Implicit Types (h src dst : HeaderMap) (key k v : string)
               (entries : list (string * list string)).

Lemma elem_of_values_copyEntries entries dst k v :
  v ∈ Header.values k (Header.copyEntries entries dst)
  ↔ v ∈ Header.values k dst
    ∨ ∃ entry, entry ∈ entries
               ∧ textproto.CanonicalMIMEHeaderKey entry.1 = k
               ∧ v ∈ entry.2.
Proof.
  unfold Header.copyEntries. revert dst.
  induction entries as [|[i x] entries IH]; intros dst; cbn [foldl fst snd].
  - split; [by left |]. intros [? | (entry & Hin & _)]; [done |].
    by apply elem_of_nil in Hin.
  - rewrite IH, values_addAll. split.
    + intros [Hv | (entry & Hin & Hk & Hv)].
      * case_decide as Hk; [| by left].
        apply elem_of_app in Hv as [Hv|Hv]; [by left | right].
        exists (i, x). split; [by left | done].
      * right. exists entry. split; [by right | done].
    + intros [Hv | (entry & Hin & Hk & Hv)].
      * left. case_decide; [apply elem_of_app; by left | done].
      * apply elem_of_cons in Hin as [-> | Hin].
        -- left. cbn [fst snd] in Hk, Hv. rewrite decide_True by done.
           apply elem_of_app. by right.
        -- right. by exists entry.
Qed.

Lemma is_Some_copyEntries_any entries dst k :
  is_Some (Header.copyEntries entries dst !! k) →
  is_Some (dst !! k)
  ∨ ∃ entry, entry ∈ entries ∧ k = textproto.CanonicalMIMEHeaderKey entry.1.
Proof.
  unfold Header.copyEntries. revert dst.
  induction entries as [|[i x] entries IH]; intros dst Hs; [by left |].
  cbn [foldl fst snd] in Hs. apply IH in Hs as [Hs | (entry & Hin & Hk)].
  - apply is_Some_addAll in Hs as [Hs | [-> _]]; [by left | right].
    exists (i, x). split; [by left | done].
  - right. exists entry. split; [by right | done].
Qed.

Variable NewRequest : string → string → Body → error + Request.t.

(** X12: whatever the keys of the inbound headers, the outbound request
    has canonical keys only; it has [X-Forwarded-For] with the remote
    address alone, [X-Forwarded-Host] with the host of the request
    alone, and no [Connection]; and under every other key it has exactly
    the values that the inbound request has under the keys of which that
    key is the canonical form. *)
Theorem cloneRequest_canonicalises_headers
    (p : ProxyHandler) (r proxyReq : Request.t) :
  cloneRequest NewRequest p r = inr proxyReq →
  Header.canonicalKeys (Request.Header proxyReq)
  ∧ Request.Header proxyReq !! "X-Forwarded-For" = Some [Request.RemoteAddr r]
  ∧ Request.Header proxyReq !! "X-Forwarded-Host" = Some [Request.Host r]
  ∧ Request.Header proxyReq !! "Connection" = None
  ∧ ∀ key v,
      key ≠ "X-Forwarded-For" → key ≠ "X-Forwarded-Host" →
      key ≠ "Connection" →
      v ∈ Header.values key (Request.Header proxyReq)
      ↔ ∃ k vs, Request.Header r !! k = Some vs
                ∧ textproto.CanonicalMIMEHeaderKey k = key
                ∧ v ∈ vs.
Proof.
  unfold cloneRequest.
  destruct (NewRequest _ _ _) as [err|req0]; [done |].
  intros [= <-]. cbn [Request.Header].
  unfold Header.Del, Header.Set_, Header.copyInto.
  change (textproto.CanonicalMIMEHeaderKey "Connection") with "Connection".
  change (textproto.CanonicalMIMEHeaderKey "X-Forwarded-Host")
    with "X-Forwarded-Host".
  change (textproto.CanonicalMIMEHeaderKey "X-Forwarded-For")
    with "X-Forwarded-For".
  split_and!.
  - intros key Hs.
    destruct (decide (key = "Connection")) as [->|Hc]; [done |].
    rewrite lookup_delete_ne in Hs by done.
    destruct (decide (key = "X-Forwarded-Host")) as [->|Hh]; [done |].
    rewrite lookup_insert_ne in Hs by done.
    destruct (decide (key = "X-Forwarded-For")) as [->|Hf]; [done |].
    rewrite lookup_insert_ne in Hs by done.
    apply is_Some_copyEntries_any in Hs as [Hs | (entry & _ & ->)].
    + rewrite lookup_empty in Hs. by destruct Hs.
    + apply CanonicalMIMEHeaderKey_idem.
  - rewrite lookup_delete_ne, lookup_insert_ne, lookup_insert_eq; done.
  - rewrite lookup_delete_ne, lookup_insert_eq; done.
  - by rewrite lookup_delete_eq.
  - intros key v Hf Hh Hc.
    unfold Header.values at 1.
    rewrite lookup_delete_ne, !lookup_insert_ne by done.
    fold (Header.values key
            (Header.copyEntries (map_to_list (Request.Header r)) ∅)).
    rewrite elem_of_values_copyEntries. unfold Header.values at 1.
    rewrite lookup_empty. split.
    + intros [Hv | ([k vs] & Hin & Hk & Hv)]; [by apply elem_of_nil in Hv |].
      apply elem_of_map_to_list in Hin. by exists k, vs.
    + intros (k & vs & Hin & Hk & Hv). right. exists (k, vs).
      split; [by apply elem_of_map_to_list | done].
Qed.

End CloningAnyKeys.

(** ** The further properties at work *)

Section MoreRuns.

#[local] Existing Instance goErrors.

Import Scenario Cases.

(** Two requests for one URL with one method have one key, whatever
    their headers. *)
Lemma createCacheKey_injective_on_tokens_witness :
  Request.Method getA = Request.Method authorized
  ∧ url.String (Request.URL getA) = url.String (Request.URL authorized).
Proof.
  apply (createCacheKey_injective_on_tokens p (NewProxyHandler guarded)
           getA authorized); reflexivity.
Defined.

(** Thirty seconds are thirty thousand million nanoseconds; some 292
    years are not what they should be. *)
Lemma Timeout_is_seconds_in_range_witness :
  Timeout (client (NewProxyHandler cfg)) = 30 * 1000000000
  ∧ Timeout (client (NewProxyHandler ages)) ≠ 9223372037 * 1000000000.
Proof.
  split.
  - apply (Timeout_is_seconds_in_range cfg); simpl; lia.
  - intros Heq. apply (Timeout_is_seconds_in_range ages) in Heq;
      simpl in *; lia.
Defined.

(** With a blank entry in the allow-list a host outside it passes. *)
Lemma isDomainAllowed_entries_witness :
  isDomainAllowed (NewProxyHandler guarded) "example.com" = true
  ∧ isDomainAllowed (NewProxyHandler blank) "evil.com" = true.
Proof.
  split.
  - destruct (isDomainAllowed_entries (NewProxyHandler guarded) "example.com")
      as [Hentry _].
    apply Hentry. simpl. by left.
  - destruct (isDomainAllowed_entries (NewProxyHandler blank) "evil.com")
      as [_ Hblank].
    apply Hblank. simpl. right. by left.
Defined.

(** With room for twenty-five rounds the run against an origin that
    redirects for ever ends as with ten. *)
Lemma ServeHTTP_always_answers_witness :
  ∃ w' σ',
    ServeHTTP tokenNewRequest 25 p newWriter getA (world looping) = Some (w', σ')
    ∧ ServeHTTP tokenNewRequest 10 p newWriter getA (world looping) = Some (w', σ')
    ∧ (length (filter (λ e, isRoundTrip e = true)
                      (newEvents (world looping) σ')) ≤ 10)%nat.
Proof.
  apply (ServeHTTP_always_answers tokenNewRequest cfg 25 newWriter getA
           (world looping)).
  lia.
Defined.

(** A request with credentials is forwarded without a lookup. *)
Lemma uncacheable_request_bypasses_cache_witness :
  wCache (after origin newWriter authorized) = empty
  ∧ forallb (λ e, negb (isCacheGet e))
            (newEvents (world origin) (after origin newWriter authorized)) = true
  ∧ forallb (λ e, negb (isWouldCache e))
            (newEvents (world origin) (after origin newWriter authorized)) = true.
Proof.
  apply (uncacheable_request_bypasses_cache tokenNewRequest 10 p newWriter
           authorized (world origin) (answer origin newWriter authorized));
    [reflexivity | by vm_compute].
Defined.

(** A 404 of the origin is the status of the answer. *)
Lemma ServeHTTP_status_table_witness :
  status (answer (always missing) newWriter getA) = Some 404
  ∧ ∃ proxyReq resp σ1,
      cloneRequest tokenNewRequest p getA = inr proxyReq
      ∧ clientDo 10 p proxyReq (afterLookup p getA (world (always missing)))
        = Some (inr resp, σ1)
      ∧ status (answer (always missing) newWriter getA)
        = Some (Response.StatusCode resp).
Proof.
  split; [by vm_compute |].
  destruct (ServeHTTP_status_table tokenNewRequest 10 p newWriter getA
              (world (always missing))
              (answer (always missing) newWriter getA)
              (after (always missing) newWriter getA) eq_refl)
    as [[_ Hst] | [(_ & _ & Hst) | [(_ & _ & _ & Hst)
       | (_ & _ & _ & [(err & _ & Hst) | [(q & err & _ & _ & Hst) | Hrelay]])]]];
    [by vm_compute | by vm_compute in Hst.. | exact Hrelay].
Defined.

(** The answer of [branded] comes back under the name of this proxy. *)
Lemma forward_success_relays_origin_witness :
  ∃ w' σ',
    ServeHTTP tokenNewRequest 10 p newWriter getA (world (always branded))
    = Some (w', σ')
    ∧ status w' = Some 200
    ∧ wBody w' = "<p>a</p>"
    ∧ Header.values "X-Proxy-Server" (sentHeader w') = ["Go-Proxy-Server/1.0"]
    ∧ Header.values "Etag" (sentHeader w') = ["v1"; "v2"].
Proof.
  destruct (forward_success_relays_origin tokenNewRequest 10 p newWriter getA
              (world (always branded)) cloned branded
              (forwarded (always branded)))
    as (w' & σ' & Hrun & Hst & Hbody & Hproxy & Hvals);
    [reflexivity | reflexivity | split; discriminate | reflexivity
    | reflexivity | by vm_compute | reflexivity | reflexivity |].
  exists w', σ'. split; [exact Hrun |]. split; [exact Hst |].
  split; [exact Hbody |]. split; [exact Hproxy |].
  rewrite Hvals; [by vm_compute | | discriminate].
  apply canonicalKeys_check. by vm_compute.
Defined.

(** A body that breaks off leaves a 200 with nothing after it. *)
Lemma body_read_failure_truncates_witness :
  ∃ w' σ',
    ServeHTTP tokenNewRequest 10 p newWriter getA (world (always broken))
    = Some (w', σ')
    ∧ status w' = Some 200
    ∧ wBody w' = ""
    ∧ last (wTrace σ')
      = Some (EvLog "Error reading response body: unexpected EOF").
Proof.
  destruct (body_read_failure_truncates tokenNewRequest 10 p newWriter getA
              (world (always broken)) cloned broken
              (forwarded (always broken)) "unexpected EOF")
    as (w' & σ' & Hrun & Hst & Hbody & _ & _ & Htrace);
    [reflexivity | split; discriminate | reflexivity | reflexivity
    | by vm_compute | reflexivity | reflexivity |].
  exists w', σ'. split; [exact Hrun |]. split; [exact Hst |].
  split; [exact Hbody |]. rewrite Htrace. apply last_snoc.
Defined.

(** A client that has hung up: the origin is still asked. *)
Lemma body_write_failure_is_logged_witness :
  ∃ w' σ',
    ServeHTTP tokenNewRequest 10 p hungUp getA (world origin) = Some (w', σ')
    ∧ status w' = Some 200
    ∧ wBody w' = ""
    ∧ last (wTrace σ')
      = Some (EvLog "Error writing response body: broken pipe").
Proof.
  destruct (body_write_failure_is_logged tokenNewRequest 10 p hungUp getA
              (world origin) cloned page (forwarded origin) "broken pipe")
    as (w' & σ' & Hrun & Hst & Hbody & _ & Hlast);
    [reflexivity | reflexivity | split; discriminate | reflexivity
    | reflexivity | by vm_compute | reflexivity | reflexivity |].
  exists w', σ'. split; [exact Hrun |]. split; [exact Hst |].
  split; [exact Hbody | exact Hlast].
Defined.

(** A 404 is relayed and nothing is said of caching it. *)
Lemma uncacheable_response_is_not_logged_witness :
  ∃ w',
    ServeHTTP tokenNewRequest 10 p newWriter getA (world (always missing))
    = Some (w', forwarded (always missing)).
Proof.
  apply (uncacheable_response_is_not_logged tokenNewRequest 10 p newWriter getA
           (world (always missing)) cloned missing);
    [reflexivity | reflexivity | split; discriminate | reflexivity
    | reflexivity | by vm_compute | reflexivity | reflexivity | reflexivity].
Defined.

(** Three redirects are followed with four requests; ten are not. *)
Lemma redirects_followed_up_to_nine_witness :
  (∃ n' sent,
     Do 10 (client p) [] getA {| seen := 0; hops := 3 |}
     = Some (inr page, n', sent) ∧ length sent = 4%nat)
  ∧ (∃ n' sent,
       Do 10 (client p) [] getA {| seen := 0; hops := 10 |}
       = Some (inl ("Get " +:+ urlerr.quote "/next"
                    +:+ ": stopped after 10 redirects"), n', sent)
       ∧ length sent = 10%nat).
Proof.
  split.
  - destruct (redirects_followed_up_to_nine cfg 10 3 {| seen := 0; hops := 3 |}
                getA page) as [Hfollow _]; [by vm_compute |].
    apply Hfollow; lia.
  - destruct (redirects_followed_up_to_nine cfg 10 10 {| seen := 0; hops := 10 |}
                getA page) as [_ Hstop]; [by vm_compute |].
    destruct (Hstop ltac:(lia) ltac:(lia))
      as (redirect & next & n' & sent & Hhop & Hdo & Hlen).
    vm_compute in Hhop. injection Hhop as <- <-.
    exists n', sent. split; [| exact Hlen].
    etrans; [exact Hdo | by vm_compute].
Defined.

(** Headers in mixed case end up under their canonical keys. *)
Lemma cloneRequest_canonicalises_headers_witness :
  ∃ proxyReq,
    cloneRequest tokenNewRequest p mixedCase = inr proxyReq
    ∧ Header.canonicalKeys (Request.Header proxyReq)
    ∧ Request.Header proxyReq !! "X-Forwarded-For" = Some ["10.0.0.7:51000"]
    ∧ Request.Header proxyReq !! "Connection" = None
    ∧ "text/html" ∈ Header.values "Accept" (Request.Header proxyReq)
    ∧ "*/*" ∈ Header.values "Accept" (Request.Header proxyReq).
Proof.
  eexists. split; [reflexivity |].
  edestruct (cloneRequest_canonicalises_headers tokenNewRequest p mixedCase)
    as (Hcan & Hfor & _ & Hconn & Hvals); [reflexivity |].
  split; [exact Hcan |]. split; [exact Hfor |]. split; [exact Hconn |].
  split.
  - apply Hvals; [discriminate.. |].
    exists "accept", ["text/html"]. split; [by vm_compute |].
    split; [reflexivity | by left].
  - apply Hvals; [discriminate.. |].
    exists "Accept", ["*/*"]. split; [by vm_compute |].
    split; [reflexivity | by left].
Defined.

End MoreRuns.

(** ** Refusals and lookups *)

Section Refusals.

Context {C N : Type} `{!cache.Cache C} `{!Network N} `{!ClientErrors}.
Variable NewRequest : string → string → Body → error + Request.t.

Implicit Types (p : ProxyHandler) (w : ResponseWriter) (r : Request.t)
               (σ : World C N) (fuel : nat).

(** What [http.Error] sends on a writer that is new and whose client is
    there: the message and a newline, as plain text. *)
Lemma Error_sends w (msg : string) (code : Z) :
  wSent w = None → wFail w = None →
  wBody (Error w msg code) = wBody w +:+ msg +:+ String "010" ""
  ∧ Header.values "Content-Type" (sentHeader (Error w msg code))
    = ["text/plain; charset=utf-8"].
Proof.
  intros Hw Hf. unfold Error, Write, WriteHeader, onHeader, sentHeader. simpl.
  rewrite Hw. simpl. rewrite Hf. simpl. split; [done |].
  rewrite values_Set. case_decide as Hk; [by vm_compute in Hk |].
  rewrite values_Set. by case_decide.
Qed.

Lemma filter_isCacheGet_frame (pre : list Event) (sent : list Request.t)
    (logs : list string) :
  filter (λ e, isCacheGet e = true)
         (pre ++ map EvRoundTrip sent ++ map EvLog logs)
  = filter (λ e, isCacheGet e = true) pre.
Proof.
  rewrite !filter_app.
  assert (filter (λ e, isCacheGet e = true) (map EvRoundTrip sent) = []) as ->.
  { induction sent as [|q sent IH]; [done |].
    by rewrite map_cons, filter_cons_False. }
  assert (filter (λ e, isCacheGet e = true) (map EvLog logs) = []) as ->.
  { induction logs as [|l logs IH]; [done |].
    by rewrite map_cons, filter_cons_False. }
  by rewrite !app_nil_r.
Qed.

(** X13: the answers that the handler makes up itself carry their
    message as plain text: a fixed sentence for a target that is not in
    proxy form and for a host that is not allowed, and the text of the
    error, after a fixed prefix, when the request cannot be cloned or the
    call fails. *)
Theorem error_answers_carry_message fuel p w r σ w' σ' :
  wSent w = None → wFail w = None →
  ServeHTTP NewRequest fuel p w r σ = Some (w', σ') →
  (¬ validTarget r →
   wBody w' = wBody w
              +:+ "Invalid proxy request. URL must include scheme and host."
              +:+ String "010" ""
   ∧ Header.values "Content-Type" (sentHeader w') = ["text/plain; charset=utf-8"])
  ∧ (validTarget r → isDomainAllowed p (url.Host (Request.URL r)) = false →
     wBody w' = wBody w +:+ "Domain not allowed" +:+ String "010" ""
     ∧ Header.values "Content-Type" (sentHeader w')
       = ["text/plain; charset=utf-8"])
  ∧ (validTarget r → isDomainAllowed p (url.Host (Request.URL r)) = true →
     cacheAnswer p r σ = None →
     (∀ err, cloneRequest NewRequest p r = inl err →
        wBody w' = wBody w +:+ "Error creating proxy request: " +:+ err
                   +:+ String "010" ""
        ∧ Header.values "Content-Type" (sentHeader w')
          = ["text/plain; charset=utf-8"])
     ∧ (∀ proxyReq err σ1,
          cloneRequest NewRequest p r = inr proxyReq →
          clientDo fuel p proxyReq (afterLookup p r σ) = Some (inl err, σ1) →
          wBody w' = wBody w +:+ "Error forwarding request: " +:+ err
                     +:+ String "010" ""
          ∧ Header.values "Content-Type" (sentHeader w')
            = ["text/plain; charset=utf-8"])).
Proof.
  intros Hw Hf Hrun. split_and!.
  - intros Hbad. rewrite ServeHTTP_invalid in Hrun.
    + injection Hrun as <- <-. by apply Error_sends.
    + unfold validTarget in Hbad.
      destruct (decide (url.Scheme (Request.URL r) = "")); [by left |].
      destruct (decide (url.Host (Request.URL r) = "")); [by right | tauto].
  - intros Hv Hd. rewrite ServeHTTP_forbidden in Hrun by done.
    injection Hrun as <- <-. by apply Error_sends.
  - intros Hv Hd Hmiss. rewrite ServeHTTP_origin in Hrun by done.
    unfold serveFromOrigin in Hrun. split.
    + intros err Hclone. rewrite Hclone in Hrun. injection Hrun as <- <-.
      destruct (Error_sends w
                  (fmt.Sprintf "Error creating proxy request: %v" [fmt.ArgV err])
                  StatusInternalServerError Hw Hf) as [Hbody Hct].
      split; [| exact Hct]. refine (eq_trans Hbody _).
      cbn. unfold fmt.showArg. by rewrite append_empty_r.
    + intros proxyReq err σ1 Hclone Hdo. rewrite Hclone, Hdo in Hrun.
      injection Hrun as <- <-.
      destruct (Error_sends w
                  (fmt.Sprintf "Error forwarding request: %v" [fmt.ArgV err])
                  StatusBadGateway Hw Hf) as [Hbody Hct].
      split; [| exact Hct]. refine (eq_trans Hbody _).
      cbn. unfold fmt.showArg. by rewrite append_empty_r.
Qed.

(** X14: a run looks the cache up once, under the key of the request,
    when the target is in proxy form, the host is allowed and the request
    is cacheable, and not at all otherwise. *)
Theorem cache_is_looked_up_at_most_once fuel p w r σ w' σ' :
  ServeHTTP NewRequest fuel p w r σ = Some (w', σ') →
  (validTarget r ∧ isDomainAllowed p (url.Host (Request.URL r)) = true
   ∧ isCacheable p r = true →
   filter (λ e, isCacheGet e = true) (newEvents σ σ')
   = [EvCacheGet (createCacheKey p r)])
  ∧ (¬ (validTarget r ∧ isDomainAllowed p (url.Host (Request.URL r)) = true
        ∧ isCacheable p r = true) →
     filter (λ e, isCacheGet e = true) (newEvents σ σ') = []).
Proof.
  intros Hrun.
  set (line := fmt.Sprintf "Proxying request: %s %s"
                 [fmt.ArgS (Request.Method r);
                  fmt.ArgS (url.String (Request.URL r))]).
  destruct (decide (url.Scheme (Request.URL r) = ""
                    ∨ url.Host (Request.URL r) = "")) as [Hbad|Hok].
  { rewrite ServeHTTP_invalid in Hrun by done. injection Hrun as <- <-.
    split; [intros [[? ?] _]; tauto |]. intros _.
    by rewrite (newEvents_app _ _ [EvLog line]). }
  assert (validTarget r) as Hv by (unfold validTarget; tauto).
  destruct (isDomainAllowed p (url.Host (Request.URL r))) eqn:Hd; cycle 1.
  { rewrite ServeHTTP_forbidden in Hrun by done. injection Hrun as <- <-.
    split; [by intros (_ & ? & _) |]. intros _.
    by rewrite (newEvents_app _ _ [EvLog line]). }
  destruct (isCacheable p r) eqn:Hc.
  - split; [intros _ | tauto].
    destruct (cache.Get (wCache σ) (createCacheKey p r)) as [[item|] c'] eqn:Hget.
    + rewrite (ServeHTTP_hit _ _ _ _ _ _ _ _ Hv Hd Hc Hget) in Hrun.
      injection Hrun as <- <-.
      erewrite newEvents_app by reflexivity. reflexivity.
    + rewrite ServeHTTP_origin in Hrun
        by (try done; unfold cacheAnswer; by rewrite Hc, Hget).
      apply serveFromOrigin_frame in Hrun as (_ & sent & logs & Ht & _).
      unfold afterLookup in Ht. rewrite Hc in Ht.
      unfold cacheGet, log.Printf in Ht. cbn [wCache wNet wTrace] in Ht.
      rewrite Hget in Ht. cbn [wTrace snd] in Ht. fold line in Ht.
      set (miss := fmt.Sprintf "Cache miss for %s" _) in Ht.
      rewrite (newEvents_app σ σ'
                 ([EvLog line; EvCacheGet (createCacheKey p r); EvLog miss]
                  ++ map EvRoundTrip sent ++ map EvLog logs))
        by (rewrite Ht, <- !app_assoc; done).
      by rewrite filter_isCacheGet_frame.
  - split; [by intros (_ & _ & ?) |]. intros _.
    rewrite ServeHTTP_origin in Hrun
      by (try done; unfold cacheAnswer; by rewrite Hc).
    apply serveFromOrigin_frame in Hrun as (_ & sent & logs & Ht & _).
    unfold afterLookup in Ht. rewrite Hc in Ht.
    unfold log.Printf in Ht. cbn [wTrace] in Ht. fold line in Ht.
    rewrite (newEvents_app σ σ'
               ([EvLog line] ++ map EvRoundTrip sent ++ map EvLog logs))
      by (rewrite Ht, <- !app_assoc; done).
    by rewrite filter_isCacheGet_frame.
Qed.

(** X15: a request to a host that is not allowed is neither forwarded
    nor answered from the cache: the network and the cache are as they
    were, although the cache may hold an entry under the key of the
    request, and the only thing recorded is the first log line. *)
Theorem forbidden_host_is_never_contacted fuel p w r σ :
  validTarget r →
  isDomainAllowed p (url.Host (Request.URL r)) = false →
  ∃ w' σ',
    ServeHTTP NewRequest fuel p w r σ = Some (w', σ')
    ∧ wNet σ' = wNet σ
    ∧ wCache σ' = wCache σ
    ∧ newEvents σ σ'
      = [EvLog ("Proxying request: " +:+ Request.Method r +:+ " "
                +:+ url.String (Request.URL r))]
    ∧ Header.Get "X-Cache" (wHeader w') = Header.Get "X-Cache" (wHeader w).
Proof.
  intros Hv Hd. rewrite ServeHTTP_forbidden by done.
  eexists _, _. split; [done |]. split; [done |]. split; [done |]. split.
  - erewrite newEvents_app; [| reflexivity].
    cbn. unfold fmt.showArg. by rewrite append_empty_r.
  - unfold Error, Write, WriteHeader, onHeader. simpl.
    destruct (wSent w); simpl; destruct (wFail w); simpl;
      unfold Header.Get, Header.Set_;
      by rewrite !lookup_insert_ne.
Qed.

End Refusals.

Section RefusalRuns.

#[local] Existing Instance goErrors.

Import Scenario Cases.

(** An origin that is down: the client reads why. *)
Lemma error_answers_carry_message_witness :
  wBody (answer down newWriter getA)
  = "Error forwarding request: Get " +:+ urlerr.quote "http://example.com/a"
    +:+ ": dial tcp: connection refused" +:+ String "010" ""
  ∧ Header.values "Content-Type" (sentHeader (answer down newWriter getA))
    = ["text/plain; charset=utf-8"].
Proof.
  destruct (error_answers_carry_message tokenNewRequest 10 p newWriter getA
              (world down) (answer down newWriter getA)
              (after down newWriter getA))
    as (_ & _ & Hlate); [reflexivity | reflexivity | by vm_compute |].
  destruct Hlate as [_ H502]; [split; discriminate | reflexivity | reflexivity |].
  destruct (H502 cloned
              ("Get " +:+ urlerr.quote "http://example.com/a"
               +:+ ": dial tcp: connection refused")
              (forwarded down)) as [Hbody Hct];
    [reflexivity | by vm_compute |].
  split; [| exact Hct]. etrans; [exact Hbody | by vm_compute].
Defined.

(** [getA] is looked up once; with credentials it is not looked up. *)
Lemma cache_is_looked_up_at_most_once_witness :
  filter (λ e, isCacheGet e = true)
         (newEvents (world origin) (after origin newWriter getA))
  = [EvCacheGet "GET:http://example.com/a"]
  ∧ filter (λ e, isCacheGet e = true)
           (newEvents (world origin) (after origin newWriter authorized))
    = [].
Proof.
  split.
  - destruct (cache_is_looked_up_at_most_once tokenNewRequest 10 p newWriter
                getA (world origin) (answer origin newWriter getA)
                (after origin newWriter getA)) as [Honce _]; [by vm_compute |].
    rewrite Honce; [reflexivity |].
    split; [split; discriminate | split; reflexivity].
  - destruct (cache_is_looked_up_at_most_once tokenNewRequest 10 p newWriter
                authorized (world origin) (answer origin newWriter authorized)
                (after origin newWriter authorized)) as [_ Hnone];
      [by vm_compute |].
    apply Hnone. intros (_ & _ & Hc). by vm_compute in Hc.
Defined.

(** A host outside the allow-list is refused although its page is in
    the cache. *)
Lemma forbidden_host_is_never_contacted_witness :
  ∃ w' σ',
    ServeHTTP tokenNewRequest 10 (NewProxyHandler guarded) newWriter
              (request "GET" "evil.com" "/" ∅)
              (newWorld {["GET:http://evil.com/" := {| cache.Value := "kept" |}]}
                        origin)
    = Some (w', σ')
    ∧ wNet σ' = origin
    ∧ newEvents (newWorld {["GET:http://evil.com/" := {| cache.Value := "kept" |}]}
                          origin) σ'
      = [EvLog "Proxying request: GET http://evil.com/"].
Proof.
  destruct (forbidden_host_is_never_contacted tokenNewRequest 10
              (NewProxyHandler guarded) newWriter
              (request "GET" "evil.com" "/" ∅)
              (newWorld {["GET:http://evil.com/" := {| cache.Value := "kept" |}]}
                        origin))
    as (w' & σ' & Hrun & Hnet & _ & Hev & _);
    [split; discriminate | reflexivity |].
  exists w', σ'. split; [exact Hrun |]. split; [exact Hnet | exact Hev].
Defined.

End RefusalRuns.

(** ** The content type that the client receives *)

Section OnTheWire.

Context {C N : Type} `{!cache.Cache C} `{!Network N} `{!ClientErrors}.
Variable NewRequest : string → string → Body → error + Request.t.

Implicit Types (p : ProxyHandler) (w : ResponseWriter) (r : Request.t)
               (σ : World C N) (fuel : nat).


End OnTheWire.

Section WireRuns.

#[local] Existing Instance goErrors.

Import Scenario Cases.


End WireRuns.
